(** * WorkTrack Portal: the notification inbox and the realtime/pull
    synchronisation layer of [src/App.tsx], embedded as Rocq functions.

    React state ([notifications], [orders], ...) and the mutable refs
    ([knownCommentIdsRef], [orderStatusMapRef], ...) are passed explicitly.
    A JS [Set<string>] is a [gset string], a [Map<string, Status>] a
    [gmap string Status], arrays are lists.  The two sources of
    nondeterminism of [pushNotification] ([Date.now()], [Math.random()])
    are arguments of the model. *)

From stdpp Require Import gmap strings list pretty.
From Stdlib Require Import Lia.
From Stdlib Require OrderedTypeEx.

Open Scope string_scope.
Open Scope list_scope.

(** ** Data model ([src/types.ts], [AppNotification] of [src/App.tsx]) *)

Inductive Role := admin | staff | client.
Inductive Status := not_started | in_progress | on_hold | completed | cancelled.
Inductive NavPage := dashboard | clients | reports.

#[global] Instance Role_eq_dec : EqDecision Role.
Proof. solve_decision. Defined.
#[global] Instance Status_eq_dec : EqDecision Status.
Proof. solve_decision. Defined.

Record Profile := mkProfile {
  profile_id : string;
  email : string;
  full_name : option string;
  role : Role;
}.

(** The columns of [Order] the synchronisation layer reads. *)
Record Order := mkOrder {
  order_id_ : string;
  order_code : string;
  order_title : string;
  status : Status;
  client_id : option string;
  assigned_to : option string;
  created_by : option string;
}.

Record AppNotification := mkNotification {
  id : string;
  title : string;
  message : string;
  created_at : string;
  read : bool;
  order_id : option string;
}.

#[global] Instance AppNotification_eq_dec : EqDecision AppNotification.
Proof. solve_decision. Defined.

(** [STATUS_LABELS] *)
Definition STATUS_LABELS (s : Status) : string :=
  match s with
  | not_started => "Not Started"
  | in_progress => "In Progress"
  | on_hold => "On Hold"
  | completed => "Completed"
  | cancelled => "Cancelled"
  end.

(** JS truthiness of an optional string: [undefined], [null] and the empty
    string are falsy. *)
Definition truthy (o : option string) : option string :=
  match o with
  | Some s => if bool_decide (s = "") then None else Some s
  | None => None
  end.

(** ** The notification inbox *)

Module Inbox.

(** [{ ...item, read: true }] *)
Definition setRead (n : AppNotification) : AppNotification :=
  mkNotification (id n) (title n) (message n) (created_at n) true (order_id n).

(** [pushNotification]: [nowId] stands for
    [`${Date.now()}-${Math.random().toString(36).slice(2, 8)}`] and [nowIso]
    for [new Date().toISOString()]; the body is the updater passed to
    [setNotifications]. *)
Definition newItem (nowId nowIso ttl msg : string) (orderId : option string)
  : AppNotification :=
  mkNotification nowId ttl msg nowIso false orderId.

Definition pushNotification (nowId nowIso ttl msg : string)
    (orderId : option string) (prev : list AppNotification)
  : list AppNotification :=
  take 50 (newItem nowId nowIso ttl msg orderId :: prev).

(** [markAllNotificationsRead] *)
Definition markAllNotificationsRead (prev : list AppNotification)
  : list AppNotification :=
  map setRead prev.

(** [unreadNotificationCount] *)
Definition unreadNotificationCount (notifications : list AppNotification) : nat :=
  length (List.filter (fun item => negb (read item)) notifications).

(** The first [k] notifications of a fixed shape, used to build concrete
    inboxes. *)
Fixpoint sampleInbox (k : nat) : list AppNotification :=
  match k with
  | 0 => []
  | S k' => mkNotification (pretty k') "t" "m" "2024-01-01T00:00:00.000Z"
                           (Nat.even k') None :: sampleInbox k'
  end.

End Inbox.

(** ** Opening a notification ([openNotification], [selectedOrder]) *)

Module Nav.

(** The pieces of React state [openNotification] reads and writes.
    [ordersRef] is the ref that an effect keeps equal to [orders] after each
    render; while [openNotification] awaits the fetch the two may differ. *)
Record AppState := mkAppState {
  notifications : list AppNotification;
  orders : list Order;
  ordersRef : list Order;
  selectedPage : NavPage;
  selectedOrderId : option string;
  sidebarOpen : bool;
  isNotificationOpen : bool;
}.

Definition setNotifications (f : list AppNotification -> list AppNotification)
    (st : AppState) : AppState :=
  mkAppState (f (notifications st)) (orders st) (ordersRef st) (selectedPage st)
             (selectedOrderId st) (sidebarOpen st) (isNotificationOpen st).

Definition setOrders (f : list Order -> list Order) (st : AppState) : AppState :=
  mkAppState (notifications st) (f (orders st)) (ordersRef st) (selectedPage st)
             (selectedOrderId st) (sidebarOpen st) (isNotificationOpen st).

(** [setSelectedPage('dashboard'); setSelectedOrderId(oid); setSidebarOpen(false)] *)
Definition navigateToOrder (oid : string) (st : AppState) : AppState :=
  mkAppState (notifications st) (orders st) (ordersRef st) dashboard
             (Some oid) false (isNotificationOpen st).

Definition setIsNotificationOpen (b : bool) (st : AppState) : AppState :=
  mkAppState (notifications st) (orders st) (ordersRef st) (selectedPage st)
             (selectedOrderId st) (sidebarOpen st) b.

(** [prev.map((n) => (n.id === item.id ? { ...n, read: true } : n))] *)
Definition markRead (itemId : string) (prev : list AppNotification)
  : list AppNotification :=
  map (fun n => if bool_decide (id n = itemId) then Inbox.setRead n else n) prev.

(** [list.some((order) => order.id === oid)] *)
Definition hasOrder (oid : string) (l : list Order) : bool :=
  existsb (fun o => bool_decide (order_id_ o = oid)) l.

(** The updater given to [setOrders] once the fetch returned [data]. *)
Definition mergeFetched (data : Order) (prev : list Order) : list Order :=
  if hasOrder (order_id_ data) prev then prev else data :: prev.

(** [openNotification].  [fetchOrder oid] is the [data] of
    [supabase.from('orders').select('*').eq('id', oid).single()] ([None] when
    the row cannot be retrieved).  The second component lists the order ids
    that were requested from the backend, in order. *)
Definition openNotification (fetchOrder : string -> option Order)
    (item : AppNotification) (st : AppState) : AppState * list string :=
  let st1 := setNotifications (markRead (id item)) st in
  match truthy (order_id item) with
  | Some oid =>
      let '(st2, queries) :=
        if hasOrder oid (ordersRef st1) then (st1, [])
        else match fetchOrder oid with
             | Some data => (setOrders (mergeFetched data) st1, [oid])
             | None => (st1, [oid])
             end in
      (setIsNotificationOpen false (navigateToOrder oid st2), queries)
  | None => (setIsNotificationOpen false st1, [])
  end.

(** [selectedOrder = orders.find((o) => o.id === selectedOrderId) ?? null];
    the order page is rendered only when this is not null. *)
Definition selectedOrder (st : AppState) : option Order :=
  match selectedOrderId st with
  | Some oid => List.find (fun o => bool_decide (order_id_ o = oid)) (orders st)
  | None => None
  end.

End Nav.

(** ** The synchronisation layer: realtime callbacks and [syncEvents] *)

Module Sync.

(** The refs owned by the synchronisation effects. *)
Record SyncRefs := mkRefs {
  knownCommentIds : gset string;
  knownFileIds : gset string;
  orderStatusMap : gmap string Status;
  lastCommentSeenAt : string;
  lastFileSeenAt : string;
}.

(** What the callbacks read but do not write: the viewer's [profile],
    [profilesByIdRef.current] and [ordersRef.current]. *)
Record SyncCtx := mkCtx {
  profile : Profile;
  profilesById : gmap string Profile;
  ordersRef : list Order;
}.

(** One call [pushNotification(title, message, orderId)]. *)
Record Notify := mkNotify {
  n_title : string;
  n_message : string;
  n_order : option string;
}.

#[global] Instance Notify_eq_dec : EqDecision Notify.
Proof. solve_decision. Defined.

(** [getOrderCode]: [found?.order_code ?? orderId.slice(0, 8)] *)
Definition getOrderCode (ctx : SyncCtx) (orderId : string) : string :=
  match List.find (fun o => bool_decide (order_id_ o = orderId)) (ordersRef ctx) with
  | Some found => order_code found
  | None => String.substring 0 8 orderId
  end.

(** [profile.role === 'client' ? clientId === profile.id : true] *)
Definition isClientOwn (ctx : SyncCtx) (clientId : option string) : bool :=
  match role (profile ctx) with
  | client => bool_decide (clientId = Some (profile_id (profile ctx)))
  | _ => true
  end.

Definition statusChanged (ctx : SyncCtx) (oid : string) (prev next : Status) : Notify :=
  mkNotify "Order Status Changed"
    (getOrderCode ctx oid +:+ " moved from " +:+ STATUS_LABELS prev +:+ " to "
       +:+ STATUS_LABELS next)
    (Some oid).

(** The body shared by both order paths once a previous status is at hand:
    [if (prev && prev !== next) { if (isClientOwn) pushNotification(...) }]. *)
Definition diffStatus (ctx : SyncCtx) (oid : string) (prev : option Status)
    (next : Status) (clientId : option string) : list Notify :=
  match prev with
  | Some p =>
      if bool_decide (p ≠ next)
      then (if isClientOwn ctx clientId then [statusChanged ctx oid p next] else [])
      else []
  | None => []
  end.

Definition setStatus (oid : string) (s : Status) (refs : SyncRefs) : SyncRefs :=
  mkRefs (knownCommentIds refs) (knownFileIds refs)
         (<[oid := s]> (orderStatusMap refs))
         (lastCommentSeenAt refs) (lastFileSeenAt refs).

(** *** Orders, realtime path ([ordersChannel]) *)

Inductive EventType := INSERT | UPDATE | DELETE.

(** [Partial<Order>] as far as the callback looks at it. *)
Record PartialOrder := mkPartialOrder {
  po_id : option string;
  po_status : option Status;
  po_client_id : option string;
}.

Record OrdersPayload := mkOrdersPayload {
  eventType : EventType;
  payload_old : PartialOrder;
  payload_new : PartialOrder;
}.

(** The callback of [ordersChannel].  The reloads it starts ([loadOrders],
    [loadOrderDetails]) run later and touch neither the refs nor the inbox
    from within the callback; they are left out, here and in the two
    callbacks below. *)
Definition ordersChannel (ctx : SyncCtx) (payload : OrdersPayload)
    (refs : SyncRefs) : SyncRefs * list Notify :=
  match eventType payload with
  | DELETE => (refs, [])
  | _ =>
      let oldRow := payload_old payload in
      let newRow := payload_new payload in
      match truthy (po_id newRow), po_status newRow with
      | Some oid, Some next =>
          let previousStatus :=
            match orderStatusMap refs !! oid with
            | Some s => Some s
            | None => po_status oldRow
            end in
          (setStatus oid next refs,
           diffStatus ctx oid previousStatus next (po_client_id newRow))
      | _, _ => (refs, [])
      end
  end.

(** *** Orders, pull path (the [ordersResult.data.forEach] of [syncEvents]) *)

Record OrderRow := mkOrderRow {
  or_id : string;
  or_status : Status;
  or_client_id : option string;
}.

Definition syncOrderRow (ctx : SyncCtx) (row : OrderRow) (refs : SyncRefs)
  : SyncRefs * list Notify :=
  let nextStatus := or_status row in
  let prev := orderStatusMap refs !! or_id row in
  (setStatus (or_id row) nextStatus refs,
   diffStatus ctx (or_id row) prev nextStatus (or_client_id row)).

(** *** Comments *)

Definition addKnownComment (cid : string) (refs : SyncRefs) : SyncRefs :=
  mkRefs ({[cid]} ∪ knownCommentIds refs) (knownFileIds refs)
         (orderStatusMap refs) (lastCommentSeenAt refs) (lastFileSeenAt refs).

Definition setLastCommentSeenAt (t : string) (refs : SyncRefs) : SyncRefs :=
  mkRefs (knownCommentIds refs) (knownFileIds refs) (orderStatusMap refs)
         t (lastFileSeenAt refs).

(** [author.full_name || author.email] *)
Definition displayName (author : Profile) : string :=
  match truthy (full_name author) with
  | Some n => n
  | None => email author
  end.

Definition clientMessage (ctx : SyncCtx) (author : Profile) (oid : string) : Notify :=
  mkNotify "Client Message"
    (displayName author +:+ " sent a comment on " +:+ getOrderCode ctx oid)
    (Some oid).

Definition newComment (ctx : SyncCtx) (oid : string) : Notify :=
  mkNotify "New Comment" ("New comment added on " +:+ getOrderCode ctx oid) (Some oid).

(** [Partial<Comment>] of the realtime payload. *)
Record PartialComment := mkPartialComment {
  pc_id : option string;
  pc_order_id : option string;
  pc_author_id : option string;
}.

(** The callback of [commentsChannel]. *)
Definition commentsChannel (ctx : SyncCtx) (row : PartialComment)
    (refs : SyncRefs) : SyncRefs * list Notify :=
  match truthy (pc_order_id row), truthy (pc_id row) with
  | Some oid, Some cid =>
      if bool_decide (cid ∈ knownCommentIds refs) then (refs, [])
      else
        let refs' := addKnownComment cid refs in
        if bool_decide (pc_author_id row = Some (profile_id (profile ctx)))
        then (refs', [])
        else
          let author :=
            match truthy (pc_author_id row) with
            | Some a => profilesById ctx !! a
            | None => None
            end in
          match author with
          | Some a =>
              if bool_decide (role (profile ctx) ≠ client) && bool_decide (role a = client)
              then (refs', [clientMessage ctx a oid])
              else (refs', [newComment ctx oid])
          | None => (refs', [newComment ctx oid])
          end
  | _, _ => (refs, [])
  end.

(** A row of [select('id,order_id,author_id,created_at')]. *)
Record CommentRow := mkCommentRow {
  cr_id : string;
  cr_order_id : string;
  cr_author_id : option string;
  cr_created_at : string;
}.

(** One iteration of [commentsResult.data.forEach]. *)
Definition syncCommentRow (ctx : SyncCtx) (item : CommentRow) (refs : SyncRefs)
  : SyncRefs * list Notify :=
  if bool_decide (cr_id item ∈ knownCommentIds refs) then (refs, [])
  else
    let refs1 := addKnownComment (cr_id item) refs in
    let out :=
      if bool_decide (cr_author_id item ≠ Some (profile_id (profile ctx)))
      then [newComment ctx (cr_order_id item)] else [] in
    let refs2 :=
      if negb (bool_decide (cr_created_at item = ""))
         && String.ltb (lastCommentSeenAt refs1) (cr_created_at item)
      then setLastCommentSeenAt (cr_created_at item) refs1 else refs1 in
    (refs2, out).

(** *** Files *)

Definition addKnownFile (fid : string) (refs : SyncRefs) : SyncRefs :=
  mkRefs (knownCommentIds refs) ({[fid]} ∪ knownFileIds refs)
         (orderStatusMap refs) (lastCommentSeenAt refs) (lastFileSeenAt refs).

Definition setLastFileSeenAt (t : string) (refs : SyncRefs) : SyncRefs :=
  mkRefs (knownCommentIds refs) (knownFileIds refs) (orderStatusMap refs)
         (lastCommentSeenAt refs) t.

(** [`${file_name ?? 'A file'} was uploaded to ${getOrderCode(order_id)}`] *)
Definition newFile (ctx : SyncCtx) (fileName : option string) (oid : string) : Notify :=
  mkNotify "New File Uploaded"
    (default "A file" fileName +:+ " was uploaded to " +:+ getOrderCode ctx oid)
    (Some oid).

Record PartialFile := mkPartialFile {
  pf_id : option string;
  pf_order_id : option string;
  pf_uploaded_by : option string;
  pf_file_name : option string;
}.

(** The callback of [filesChannel]. *)
Definition filesChannel (ctx : SyncCtx) (row : PartialFile) (refs : SyncRefs)
  : SyncRefs * list Notify :=
  match truthy (pf_order_id row), truthy (pf_id row) with
  | Some oid, Some fid =>
      if bool_decide (fid ∈ knownFileIds refs) then (refs, [])
      else
        let refs' := addKnownFile fid refs in
        if bool_decide (pf_uploaded_by row = Some (profile_id (profile ctx)))
        then (refs', [])
        else (refs', [newFile ctx (pf_file_name row) oid])
  | _, _ => (refs, [])
  end.

(** A row of [select('id,order_id,uploaded_by,file_name,created_at')]. *)
Record FileRow := mkFileRow {
  fr_id : string;
  fr_order_id : string;
  fr_uploaded_by : option string;
  fr_file_name : option string;
  fr_created_at : string;
}.

(** One iteration of [filesResult.data.forEach]. *)
Definition syncFileRow (ctx : SyncCtx) (item : FileRow) (refs : SyncRefs)
  : SyncRefs * list Notify :=
  if bool_decide (fr_id item ∈ knownFileIds refs) then (refs, [])
  else
    let refs1 := addKnownFile (fr_id item) refs in
    let out :=
      if bool_decide (fr_uploaded_by item ≠ Some (profile_id (profile ctx)))
      then [newFile ctx (fr_file_name item) (fr_order_id item)] else [] in
    let refs2 :=
      if negb (bool_decide (fr_created_at item = ""))
         && String.ltb (lastFileSeenAt refs1) (fr_created_at item)
      then setLastFileSeenAt (fr_created_at item) refs1 else refs1 in
    (refs2, out).

(** *** Deliveries and traces

    Every way a row reaches the layer: a realtime callback, or one iteration
    of a [forEach] of [syncEvents]. *)
Inductive Delivery :=
  | PushOrder (payload : OrdersPayload)
  | PullOrder (row : OrderRow)
  | PushComment (row : PartialComment)
  | PullComment (item : CommentRow)
  | PushFile (row : PartialFile)
  | PullFile (item : FileRow).

Definition deliver (ctx : SyncCtx) (d : Delivery) (refs : SyncRefs)
  : SyncRefs * list Notify :=
  match d with
  | PushOrder payload => ordersChannel ctx payload refs
  | PullOrder row => syncOrderRow ctx row refs
  | PushComment row => commentsChannel ctx row refs
  | PullComment item => syncCommentRow ctx item refs
  | PushFile row => filesChannel ctx row refs
  | PullFile item => syncFileRow ctx item refs
  end.

(** A trace pairs each delivery with the context in force when it is
    handled ([profilesByIdRef] and [ordersRef] change between callbacks).
    [run] returns the final refs and, per delivery, the calls of
    [pushNotification] it made. *)
Fixpoint run (refs : SyncRefs) (ds : list (SyncCtx * Delivery))
  : SyncRefs * list (Delivery * list Notify) :=
  match ds with
  | [] => (refs, [])
  | (ctx, d) :: ds' =>
      let '(refs1, out) := deliver ctx d refs in
      let '(refs2, log) := run refs1 ds' in
      (refs2, (d, out) :: log)
  end.

(** [syncEvents] after the three queries resolved: each result is [None]
    when the query failed ([error] set or no [data]); [cancelled] is the
    flag set by the cleanup of the effect. *)
Definition syncEvents (ctx : SyncCtx) (cancelled : bool)
    (ordersResult : option (list OrderRow))
    (commentsResult : option (list CommentRow))
    (filesResult : option (list FileRow))
    (refs : SyncRefs) : SyncRefs * list (Delivery * list Notify) :=
  if cancelled then (refs, [])
  else
    run refs
      (map (fun row => (ctx, PullOrder row)) (default [] ordersResult)
       ++ map (fun item => (ctx, PullComment item)) (default [] commentsResult)
       ++ map (fun item => (ctx, PullFile item)) (default [] filesResult)).

(** The comment id, respectively file id, a delivery is about. *)
Definition commentIdOf (d : Delivery) : option string :=
  match d with
  | PushComment row => pc_id row
  | PullComment item => Some (cr_id item)
  | _ => None
  end.

Definition fileIdOf (d : Delivery) : option string :=
  match d with
  | PushFile row => pf_id row
  | PullFile item => Some (fr_id item)
  | _ => None
  end.

(** A realtime payload that passes the guard
    [if (!row.order_id || !row.id) return]; pulled rows always do. *)
Definition wellFormed (d : Delivery) : bool :=
  match d with
  | PushComment row => bool_decide (is_Some (truthy (pc_order_id row)))
                       && bool_decide (is_Some (truthy (pc_id row)))
  | PushFile row => bool_decide (is_Some (truthy (pf_order_id row)))
                    && bool_decide (is_Some (truthy (pf_id row)))
  | _ => true
  end.

(** Number of deliveries in a log that concern [i] and reached
    [pushNotification]. *)
Definition notifiedFor (idOf : Delivery -> option string) (i : string)
    (log : list (Delivery * list Notify)) : nat :=
  length (List.filter
            (fun e => bool_decide (idOf (fst e) = Some i)
                      && negb (bool_decide (snd e = []))) log).

(** *** Session boundaries *)

(** The reset at the start of the sync effect; [nowIso] is
    [new Date().toISOString()]. *)
Definition startSession (nowIso : string) : SyncRefs :=
  mkRefs ∅ ∅ ∅ nowIso nowIso.

(** The reset of [handleSignOut] and of the auth listener. *)
Definition signOutRefs : SyncRefs := mkRefs ∅ ∅ ∅ "" "".

(** [seedStatusMap] once its query returned [data]. *)
Definition seedStatusMap (data : list (string * Status)) (refs : SyncRefs) : SyncRefs :=
  mkRefs (knownCommentIds refs) (knownFileIds refs)
         (fold_left (fun m row => <[fst row := snd row]> m) data ∅)
         (lastCommentSeenAt refs) (lastFileSeenAt refs).

(** The effect on [orders]: once the order list has been (re)loaded the
    status map is rebuilt from it. *)
Definition onOrdersChanged (orders : list Order) (refs : SyncRefs) : SyncRefs :=
  mkRefs (knownCommentIds refs) (knownFileIds refs)
         (fold_left (fun m o => <[order_id_ o := status o]> m) orders ∅)
         (lastCommentSeenAt refs) (lastFileSeenAt refs).

(** *** The viewer's own status update

    [handleStatusUpdate] writes [{ status: statusDraft }] to the selected
    order on behalf of the signed-in [actor].  The change feed then delivers
    the row images before and after the update; no column of the row says
    who performed it, so [actor] leaves no trace in the payload. *)
Definition imageOf (o : Order) : PartialOrder :=
  mkPartialOrder (Some (order_id_ o)) (Some (status o)) (client_id o).

Definition withStatus (s : Status) (o : Order) : Order :=
  mkOrder (order_id_ o) (order_code o) (order_title o) s (client_id o)
          (assigned_to o) (created_by o).

Definition handleStatusUpdate (actor : Profile) (selected : Order)
    (statusDraft : Status) : OrdersPayload :=
  mkOrdersPayload UPDATE (imageOf selected) (imageOf (withStatus statusDraft selected)).

(** The actor a delivery names: [author_id] of a comment, [uploaded_by] of a
    file.  Order rows name none. *)
Definition actorOf (d : Delivery) : option string :=
  match d with
  | PushComment row => pc_author_id row
  | PullComment item => cr_author_id item
  | PushFile row => pf_uploaded_by row
  | PullFile item => fr_uploaded_by item
  | PushOrder _ | PullOrder _ => None
  end.

Definition rowOf (o : Order) : OrderRow :=
  mkOrderRow (order_id_ o) (status o) (client_id o).

(** An observation of [(order id, status, client_id)] through either source. *)
Inductive Source :=
  | ViaInsert (oldRow : PartialOrder)
  | ViaUpdate (oldRow : PartialOrder)
  | ViaPull.

Definition observe (src : Source) (oid : string) (s : Status)
    (clientId : option string) : Delivery :=
  match src with
  | ViaInsert oldRow =>
      PushOrder (mkOrdersPayload INSERT oldRow (mkPartialOrder (Some oid) (Some s) clientId))
  | ViaUpdate oldRow =>
      PushOrder (mkOrdersPayload UPDATE oldRow (mkPartialOrder (Some oid) (Some s) clientId))
  | ViaPull => PullOrder (mkOrderRow oid s clientId)
  end.

(** What stands in for the previous status when the map has no entry: for
    the realtime callback the status of the payload's old row image
    ([?? oldRow.status]), for a pulled row nothing. *)
Definition fallbackStatus (src : Source) : option Status :=
  match src with
  | ViaInsert oldRow | ViaUpdate oldRow => po_status oldRow
  | ViaPull => None
  end.

End Sync.

(** ** Concrete profiles, orders and refs used in the examples *)

Module Fixtures.
Import Sync.

Definition ada : Profile := mkProfile "u-ada" "ada@example.com" (Some "Ada Admin") admin.
Definition sam : Profile := mkProfile "u-sam" "sam@example.com" (Some "Sam Staff") staff.
Definition ann : Profile := mkProfile "u-ann" "ann@example.com" (Some "Ann Client") client.
Definition bob : Profile := mkProfile "u-bob" "bob@example.com" None client.

Definition order1 : Order :=
  mkOrder "o-1" "ORD-20240101-AB12" "Landing page" not_started (Some "u-ann") (Some "u-sam")
          (Some "u-ada").

Definition everyone : gmap string Profile :=
  <["u-ada" := ada]> (<["u-sam" := sam]> (<["u-ann" := ann]> (<["u-bob" := bob]> ∅))).

Definition ctxOf (viewer : Profile) : SyncCtx := mkCtx viewer everyone [order1].

Definition t0 : string := "2024-01-01T00:00:00.000Z".
Definition t1 : string := "2024-01-01T00:00:05.000Z".

Definition fresh : SyncRefs := startSession t0.
Definition seeded : SyncRefs := seedStatusMap [("o-1", not_started)] fresh.

Definition annComment : CommentRow := mkCommentRow "c-1" "o-1" (Some "u-ann") t1.
Definition annCommentPayload : PartialComment :=
  mkPartialComment (Some "c-1") (Some "o-1") (Some "u-ann").

Definition samFile : FileRow := mkFileRow "f-1" "o-1" (Some "u-sam") (Some "brief.pdf") t1.
Definition samFilePayload : PartialFile :=
  mkPartialFile (Some "f-1") (Some "o-1") (Some "u-sam") (Some "brief.pdf").

Definition inboxOf3 : list AppNotification :=
  [mkNotification "n-3" "New Comment" "m3" t1 false (Some "o-1");
   mkNotification "n-2" "New File Uploaded" "m2" t0 false (Some "o-9");
   mkNotification "n-1" "New Comment" "m1" t0 true None].

Definition appState : Nav.AppState :=
  Nav.mkAppState inboxOf3 [order1] [order1] reports None true true.

End Fixtures.

(** ** Pagination of the order table ([PAGE_SIZE], [totalPages],
    [paginatedOrders], the page buttons and the clamping effect) *)

Module Paging.

Definition PAGE_SIZE : nat := 10.

(** [Math.max(1, Math.ceil(filteredOrders.length / PAGE_SIZE))]; for a
    length, the ceiling of [len / 10] is [(len + 9)] divided by 10. *)
Definition totalPages (len : nat) : nat :=
  Nat.max 1 ((len + (PAGE_SIZE - 1)) / PAGE_SIZE).

(** [filteredOrders.slice(start, start + PAGE_SIZE)] with
    [start = (page - 1) * PAGE_SIZE].  For [page = 0] the start is negative
    and the end is 0, for which [slice] returns the empty array. *)
Definition paginatedOrders {A : Type} (filteredOrders : list A) (page : nat)
  : list A :=
  match page with
  | 0 => []
  | S p => take PAGE_SIZE (drop (p * PAGE_SIZE) filteredOrders)
  end.

(** The effect [if (page > totalPages) setPage(totalPages)]. *)
Definition clampPage (total page : nat) : nat :=
  if Nat.ltb total page then total else page.

(** [setPage((p) => Math.max(1, p - 1))] *)
Definition prevPage (p : nat) : nat := Nat.max 1 (p - 1).

(** [setPage((p) => Math.min(totalPages, p + 1))] *)
Definition nextPage (total p : nat) : nat := Nat.min total (p + 1).

End Paging.

(** ** Views derived from the loaded profiles ([profilesById], [clients],
    [staffMembers]) *)

Module Directory.

(** [profiles.forEach((p) => map.set(p.id, p))] on a new [Map]. *)
Definition profilesById (profiles : list Profile) : gmap string Profile :=
  fold_left (fun m p => <[profile_id p := p]> m) profiles ∅.

Definition clients (profiles : list Profile) : list Profile :=
  List.filter (fun p => bool_decide (role p = client)) profiles.

Definition staffMembers (profiles : list Profile) : list Profile :=
  List.filter (fun p => bool_decide (role p = admin) || bool_decide (role p = staff))
              profiles.

End Directory.

(** ** Toasts ([addToast], [removeToast]) *)

Module Toasts.

Inductive ToastType := success | error | info.

Record ToastMessage := mkToast {
  toast_id : string;
  toast_type : ToastType;
  toast_message : string;
}.

(** [addToast]; [nowId] stands for the generated id. *)
Definition addToast (nowId : string) (type : ToastType) (msg : string)
    (prev : list ToastMessage) : list ToastMessage :=
  prev ++ [mkToast nowId type msg].

(** [prev.filter((t) => t.id !== id)] *)
Definition removeToast (tid : string) (prev : list ToastMessage) : list ToastMessage :=
  List.filter (fun t => negb (bool_decide (toast_id t = tid))) prev.

End Toasts.

(** ** The three writers of [notifications] as one operation type *)

Module InboxOps.

Inductive Op :=
  | Push (nowId nowIso ttl msg : string) (orderId : option string)
  | MarkAll
  | Open (itemId : string).

(** The updater each writer passes to [setNotifications]. *)
Definition apply (op : Op) (prev : list AppNotification) : list AppNotification :=
  match op with
  | Push nowId nowIso ttl msg orderId =>
      Inbox.pushNotification nowId nowIso ttl msg orderId prev
  | MarkAll => Inbox.markAllNotificationsRead prev
  | Open itemId => Nav.markRead itemId prev
  end.

Definition applyAll (ops : list Op) (start : list AppNotification)
  : list AppNotification :=
  fold_left (fun inbox op => apply op inbox) ops start.

(** The id an operation brings into the inbox, if any. *)
Definition pushedId (op : Op) : option string :=
  match op with
  | Push nowId _ _ _ _ => Some nowId
  | _ => None
  end.

End InboxOps.

(** ** The three entity streams of the synchronisation layer *)

Module Streams.
Import Sync.

Inductive Stream := Orders | Comments | Files.

#[global] Instance Stream_eq_dec : EqDecision Stream.
Proof. solve_decision. Defined.

Definition streamOf (d : Delivery) : Stream :=
  match d with
  | PushOrder _ | PullOrder _ => Orders
  | PushComment _ | PullComment _ => Comments
  | PushFile _ | PullFile _ => Files
  end.

(** Whether a delivery came through a realtime callback. *)
Definition isPush (d : Delivery) : bool :=
  match d with
  | PushOrder _ | PushComment _ | PushFile _ => true
  | _ => false
  end.

(** The entries of a log that belong to one stream. *)
Definition logOf (s : Stream) (log : list (Delivery * list Notify))
  : list (Delivery * list Notify) :=
  List.filter (fun e => bool_decide (streamOf (fst e) = s)) log.

(** The part of the refs each stream owns: the status map for orders, the
    known-id set and the cursor for comments and for files. *)
Definition partOf (s : Stream) (refs : SyncRefs)
  : gmap string Status * gset string * string :=
  match s with
  | Orders => (orderStatusMap refs, ∅, "")
  | Comments => (∅, knownCommentIds refs, lastCommentSeenAt refs)
  | Files => (∅, knownFileIds refs, lastFileSeenAt refs)
  end.

(** The deliveries [syncEvents] makes for one stream's query result. *)
Definition pulled (ctx : SyncCtx) (s : Stream)
    (ordersResult : option (list OrderRow))
    (commentsResult : option (list CommentRow))
    (filesResult : option (list FileRow)) : list (SyncCtx * Delivery) :=
  match s with
  | Orders => map (fun row => (ctx, PullOrder row)) (default [] ordersResult)
  | Comments => map (fun item => (ctx, PullComment item)) (default [] commentsResult)
  | Files => map (fun item => (ctx, PullFile item)) (default [] filesResult)
  end.

(** What a pulled order row is compared with, and the log entry it yields,
    when the map it meets is [m]. *)
Definition pulledOrderEntry (ctx : SyncCtx) (m : gmap string Status)
    (row : OrderRow) : Delivery * list Notify :=
  (PullOrder row,
   diffStatus ctx (or_id row) (m !! or_id row) (or_status row) (or_client_id row)).

(** The snapshot rows [seedStatusMap] and the orders query of [syncEvents]
    both read: [(id, status)] of a row. *)
Definition snapshotOf (rows : list OrderRow) : list (string * Status) :=
  map (fun row => (or_id row, or_status row)) rows.

End Streams.

(** ** The effect that keeps [ordersRef] current, and the content of an entry *)

Module Render.

(** The effect on [orders]: [ordersRef.current = orders]. *)
Definition syncOrdersRef (st : Nav.AppState) : Nav.AppState :=
  Nav.mkAppState (Nav.notifications st) (Nav.orders st) (Nav.orders st)
                 (Nav.selectedPage st) (Nav.selectedOrderId st)
                 (Nav.sidebarOpen st) (Nav.isNotificationOpen st).

(** What distinguishes two inbox entries besides the read flag. *)
Definition contentOf (n : AppNotification)
  : string * string * string * string * option string :=
  (id n, title n, message n, created_at n, order_id n).

End Render.

(** ** CSV export ([csvEscape] and the joins of [handleDownloadSheet]) *)

Module Csv.

Definition dquote : Ascii.ascii := Ascii.ascii_of_nat 34.
Definition comma : Ascii.ascii := Ascii.ascii_of_nat 44.
Definition newline : Ascii.ascii := Ascii.ascii_of_nat 10.

(** [value.includes(c)] for a one-character [c]. *)
Fixpoint includes (c : Ascii.ascii) (s : string) : bool :=
  match s with
  | EmptyString => false
  | String a s' => bool_decide (a = c) || includes c s'
  end.

(** The [value.replace] of [csvEscape]: every double quote is written
    twice. *)
Fixpoint doubleQuotes (s : string) : string :=
  match s with
  | EmptyString => EmptyString
  | String a s' =>
      if bool_decide (a = dquote)
      then String dquote (String dquote (doubleQuotes s'))
      else String a (doubleQuotes s')
  end.

Definition csvEscape (value : string) : string :=
  if includes dquote value || includes comma value || includes newline value
  then String dquote (doubleQuotes value +:+ String dquote EmptyString)
  else value.

(** [row.map((cell) => csvEscape(String(cell))).join(',')] *)
Definition csvLine (row : list string) : string :=
  String.concat (String comma EmptyString) (map csvEscape row).

(** [[header, ...rows].map(...).join('\n')] *)
Definition csvSheet (header : list string) (rows : list (list string)) : string :=
  String.concat (String newline EmptyString) (map csvLine (header :: rows)).

(** *** A reader of the sheet

    Not part of the application: the inverse of [csvSheet] that the proofs
    use to show that escaping loses nothing.  [readQuoted] reads a field
    after its opening quote, [readRaw] an unquoted field up to the next
    comma or line break; both return the field and what follows it.
    [readFields] reads the fields of one line and returns what follows the
    line break, if there is one; [readSheet] reads line after line. *)
Fixpoint readQuoted (s : string) : option (string * string) :=
  match s with
  | EmptyString => None
  | String a s' =>
      if bool_decide (a = dquote)
      then match s' with
           | String b s'' =>
               if bool_decide (b = dquote)
               then match readQuoted s'' with
                    | Some (v, r) => Some (String dquote v, r)
                    | None => None
                    end
               else Some (EmptyString, s')
           | EmptyString => Some (EmptyString, EmptyString)
           end
      else match readQuoted s' with
           | Some (v, r) => Some (String a v, r)
           | None => None
           end
  end.

Fixpoint readRaw (s : string) : string * string :=
  match s with
  | EmptyString => (EmptyString, EmptyString)
  | String a s' =>
      if bool_decide (a = comma) || bool_decide (a = newline)
      then (EmptyString, s)
      else (String a (readRaw s').1, (readRaw s').2)
  end.

Definition readField (s : string) : option (string * string) :=
  match s with
  | String a s' => if bool_decide (a = dquote) then readQuoted s' else Some (readRaw s)
  | EmptyString => Some (EmptyString, EmptyString)
  end.

Fixpoint readFields (fuel : nat) (s : string)
  : option (list string * option string) :=
  match fuel with
  | 0 => None
  | S fuel' =>
      match readField s with
      | Some (v, EmptyString) => Some ([v], None)
      | Some (v, String a r) =>
          if bool_decide (a = comma)
          then match readFields fuel' r with
               | Some (vs, next) => Some (v :: vs, next)
               | None => None
               end
          else if bool_decide (a = newline) then Some ([v], Some r)
          else None
      | None => None
      end
  end.

Fixpoint readSheet (lines fuel : nat) (s : string) : option (list (list string)) :=
  match lines with
  | 0 => None
  | S lines' =>
      match readFields fuel s with
      | Some (row, None) => Some [row]
      | Some (row, Some r) =>
          match readSheet lines' fuel r with
          | Some rows => Some (row :: rows)
          | None => None
          end
      | None => None
      end
  end.

(** What may follow a field: nothing, or a comma or a line break and
    more. *)
Definition endsField (rest : string) : Prop :=
  rest = EmptyString
  \/ (exists r, rest = String comma r)
  \/ (exists r, rest = String newline r).

(** What may follow a line, and what [readFields] reports for it. *)
Definition afterLine (rest : string) : option (option string) :=
  match rest with
  | EmptyString => Some None
  | String a r => if bool_decide (a = newline) then Some (Some r) else None
  end.

End Csv.

(** ** What an order delivery is about *)

Module Observed.
Import Sync.


(** The [client_id] of the row an order delivery carries. *)
Definition clientIdOf (d : Delivery) : option string :=
  match d with
  | PushOrder payload => po_client_id (payload_new payload)
  | PullOrder row => or_client_id row
  | _ => None
  end.

End Observed.

(** ** Decidable equality of the row types *)

#[global] Instance Profile_eq_dec : EqDecision Profile.
Proof. solve_decision. Defined.
#[global] Instance Order_eq_dec : EqDecision Order.
Proof. solve_decision. Defined.
#[global] Instance OrderRow_eq_dec : EqDecision Sync.OrderRow.
Proof. solve_decision. Defined.
#[global] Instance CommentRow_eq_dec : EqDecision Sync.CommentRow.
Proof. solve_decision. Defined.
#[global] Instance FileRow_eq_dec : EqDecision Sync.FileRow.
Proof. solve_decision. Defined.
#[global] Instance ToastType_eq_dec : EqDecision Toasts.ToastType.
Proof. solve_decision. Defined.
#[global] Instance ToastMessage_eq_dec : EqDecision Toasts.ToastMessage.
Proof. solve_decision. Defined.

(** ** More concrete data for the examples *)

Module Samples.
Import Sync.

Definition t2 : string := "2024-01-01T00:00:09.000Z".

Definition rows2 : list OrderRow :=
  [mkOrderRow "o-1" in_progress (Some "u-ann");
   mkOrderRow "o-2" completed (Some "u-bob")].

Definition comments2 : list CommentRow :=
  [Fixtures.annComment; mkCommentRow "c-2" "o-1" (Some "u-sam") t2].

Definition files1 : list FileRow := [Fixtures.samFile].

Definition people : list Profile :=
  [Fixtures.ada; Fixtures.sam; Fixtures.ann; Fixtures.bob].

Definition toasts2 : list Toasts.ToastMessage :=
  [Toasts.mkToast "t-1" Toasts.info "Status updated";
   Toasts.mkToast "t-2" Toasts.error "Upload failed"].

(** A backend that still has every order asked for. *)
Definition fetchAny (oid : string) : option Order :=
  Some (mkOrder oid "ORD-20240102-ZZ99" "Fetched" completed None None None).

Definition noteAboutLoaded : AppNotification :=
  mkNotification "n-3" "New Comment" "m3" Fixtures.t1 false (Some "o-1").
Definition noteAboutMissing : AppNotification :=
  mkNotification "n-2" "New File Uploaded" "m2" Fixtures.t0 false (Some "o-9").

Definition someOps : list InboxOps.Op :=
  [InboxOps.Push "n-4" Fixtures.t1 "New Comment" "m4" None;
   InboxOps.Open "n-4";
   InboxOps.MarkAll].

Definition numbers25 : list nat := seq 0 25.

Definition cellsA : list string := ["ORD-1"; "Fix login, please"; "in_progress"].

End Samples.

(** ** An order list that lags behind the status map

    The list holds order o-1 as not started.  A pull reports it in
    progress; the pull does not reload the list.  Then the viewer opens the
    notification about order o-9, which is fetched and put in front of the
    list; o-1 stays in the list as it was loaded. *)

Module Stale.
Import Sync.

(** The status map after the effect on [orders] ran for the loaded list. *)
Definition loaded : SyncRefs := onOrdersChanged (Nav.orders Fixtures.appState) Fixtures.fresh.

Definition pulledRow : OrderRow := mkOrderRow "o-1" in_progress (Some "u-ann").

Definition viewer : SyncCtx := Fixtures.ctxOf Fixtures.sam.

(** The refs after the first pull of [pulledRow]. *)
Definition afterFirstPull : SyncRefs := (deliver viewer (PullOrder pulledRow) loaded).1.

(** The application state after the viewer opened the notification about
    o-9 and the fetch returned that order. *)
Definition afterOpen : Nav.AppState :=
  (Nav.openNotification Samples.fetchAny Samples.noteAboutMissing Fixtures.appState).1.

(** The effect on [orders] runs for the new list. *)
Definition rebuilt : SyncRefs := onOrdersChanged (Nav.orders afterOpen) afterFirstPull.

Definition viewerAfterOpen : SyncCtx :=
  mkCtx Fixtures.sam Fixtures.everyone (Nav.orders afterOpen).

Definition announcement : Notify :=
  mkNotify "Order Status Changed"
           "ORD-20240101-AB12 moved from Not Started to In Progress" (Some "o-1").

End Stale.

(** * Properties of the inbox *)

Section InboxFacts.
Import Inbox.

Variables (nowId nowIso ttl msg : string) (orderId : option string).

Let item := newItem nowId nowIso ttl msg orderId.
Let push := pushNotification nowId nowIso ttl msg orderId.

Lemma push_unfold prev : push prev = item :: take 49 prev.
Proof. reflexivity. Qed.

Lemma unread_app l1 l2 :
  unreadNotificationCount (l1 ++ l2)
  = unreadNotificationCount l1 + unreadNotificationCount l2.
Proof.
  unfold unreadNotificationCount.
  by rewrite List.filter_app, length_app.
Qed.

Lemma unread_all_read l :
  Forall (fun n => read n = true) l -> unreadNotificationCount l = 0.
Proof.
  unfold unreadNotificationCount.
  induction 1 as [|n l Hn _ IH]; simpl; [done|].
  by rewrite Hn.
Qed.

Lemma full_inbox_split (prev : list AppNotification) :
  length prev = 50 -> exists oldest, prev = take 49 prev ++ [oldest].
Proof.
  intros Hlen.
  destruct (drop 49 prev) as [|oldest rest] eqn:Hd.
  - apply (f_equal length) in Hd. rewrite length_drop in Hd. simpl in Hd. lia.
  - exists oldest.
    assert (rest = []) as ->.
    { apply (f_equal length) in Hd. rewrite length_drop in Hd. simpl in Hd.
      destruct rest; [done | simpl in Hd; lia]. }
    by rewrite <- Hd, take_drop.
Qed.

(** C7: [pushNotification] puts the new entry in front, keeps the entries
    that follow in their order, never returns more than 50 entries, and on
    an inbox of 50 drops exactly the last (oldest) entry. *)
Theorem pushNotification_prepends_and_caps (prev : list AppNotification) :
  push prev !! 0 = Some item
  /\ push prev = item :: take 49 prev
  /\ length (push prev) = Nat.min 50 (S (length prev))
  /\ length (push prev) <= 50
  /\ (length prev < 50 -> push prev = item :: prev)
  /\ (length prev = 50 ->
      exists oldest, prev = take 49 prev ++ [oldest]
                     /\ push prev = item :: take 49 prev).
Proof.
  rewrite push_unfold.
  repeat split.
  - cbn [length]. rewrite length_take. lia.
  - cbn [length]. rewrite length_take. lia.
  - intros Hlt. f_equal. apply take_ge. lia.
  - intros Hlen. destruct (full_inbox_split prev Hlen) as [oldest Ho].
    exists oldest. by split.
Qed.

(** C10: the pushed entry is unread, the entries kept behind it are the
    previous ones unchanged, and when no unread entry is evicted (every
    evicted entry was read, or nothing is evicted at all) the unread count
    grows by exactly one. *)
Theorem pushNotification_unread_count (prev : list AppNotification) :
  (exists n, push prev !! 0 = Some n /\ read n = false)
  /\ (forall k, k < 49 -> push prev !! S k = prev !! k)
  /\ (Forall (fun n => read n = true) (drop 49 prev) ->
      unreadNotificationCount (push prev) = S (unreadNotificationCount prev))
  /\ (length prev < 50 ->
      unreadNotificationCount (push prev) = S (unreadNotificationCount prev)).
Proof.
  assert (Hcount : Forall (fun n => read n = true) (drop 49 prev) ->
            unreadNotificationCount (push prev) = S (unreadNotificationCount prev)).
  { intros Hev. rewrite push_unfold.
    rewrite <- (take_drop 49 prev) at 2.
    rewrite unread_app, (unread_all_read _ Hev).
    unfold unreadNotificationCount. simpl. lia. }
  split; [|split; [|split]].
  - exists item. by split.
  - intros k Hk. rewrite push_unfold. simpl. by apply lookup_take_lt.
  - exact Hcount.
  - intros Hlt. apply Hcount. rewrite drop_ge by lia. constructor.
Qed.

End InboxFacts.

(** C9: [markAllNotificationsRead] leaves every entry read, changes nothing
    else, and applying it a second time changes nothing. *)
Theorem markAllNotificationsRead_idempotent (prev : list AppNotification) :
  Forall (fun n => read n = true) (Inbox.markAllNotificationsRead prev)
  /\ Inbox.markAllNotificationsRead (Inbox.markAllNotificationsRead prev)
     = Inbox.markAllNotificationsRead prev
  /\ Inbox.unreadNotificationCount (Inbox.markAllNotificationsRead prev) = 0
  /\ map id (Inbox.markAllNotificationsRead prev) = map id prev
  /\ map order_id (Inbox.markAllNotificationsRead prev) = map order_id prev.
Proof.
  unfold Inbox.markAllNotificationsRead.
  assert (Hall : Forall (fun n => read n = true) (map Inbox.setRead prev)).
  { apply Forall_forall. intros n Hn. apply list_elem_of_In in Hn.
    apply in_map_iff in Hn as (m & <- & _). reflexivity. }
  repeat split.
  - exact Hall.
  - rewrite map_map. apply map_ext. by intros [].
  - by apply unread_all_read.
  - rewrite map_map. by apply map_ext.
  - rewrite map_map. by apply map_ext.
Qed.

(** * Properties of [openNotification] *)

Section NavFacts.
Import Nav.

Lemma hasOrder_true oid l :
  hasOrder oid l = true <-> oid ∈ map order_id_ l.
Proof.
  unfold hasOrder. rewrite existsb_exists, list_elem_of_In, in_map_iff.
  split; intros (o & H1 & H2); exists o.
  - apply bool_decide_eq_true in H2. by split.
  - split; [done | by apply bool_decide_eq_true].
Qed.

Lemma hasOrder_false oid l :
  hasOrder oid l = false <-> oid ∉ map order_id_ l.
Proof.
  rewrite <- hasOrder_true. destruct (hasOrder oid l); split; congruence.
Qed.

Lemma mergeFetched_NoDup data prev :
  NoDup (map order_id_ prev) -> NoDup (map order_id_ (mergeFetched data prev)).
Proof.
  intros Hnd. unfold mergeFetched.
  destruct (hasOrder (order_id_ data) prev) eqn:Hh; [done|].
  simpl. apply NoDup_cons. split; [by apply hasOrder_false | done].
Qed.

Lemma mergeFetched_present data prev :
  order_id_ data ∈ map order_id_ prev -> mergeFetched data prev = prev.
Proof.
  intros Hin. unfold mergeFetched.
  by apply hasOrder_true in Hin as ->.
Qed.

Lemma find_absent oid l :
  hasOrder oid l = false ->
  List.find (fun o => bool_decide (order_id_ o = oid)) l = None.
Proof.
  unfold hasOrder. induction l as [|o l IH]; simpl; [done|].
  destruct (bool_decide (order_id_ o = oid)); simpl; [done | exact IH].
Qed.

Lemma same_id_same_entry (l : list AppNotification) n m :
  NoDup (map id l) -> n ∈ l -> m ∈ l -> id n = id m -> n = m.
Proof.
  induction l as [|x l IH]; simpl; intros Hnd Hn Hm Heq.
  - by apply elem_of_nil in Hn.
  - apply NoDup_cons in Hnd as [Hx Hnd].
    apply elem_of_cons in Hn as [->|Hn]; apply elem_of_cons in Hm as [->|Hm].
    + done.
    + exfalso. apply Hx. rewrite Heq. apply list_elem_of_In, in_map.
      by apply list_elem_of_In.
    + exfalso. apply Hx. rewrite <- Heq. apply list_elem_of_In, in_map.
      by apply list_elem_of_In.
    + by apply IH.
Qed.

Variable fetchOrder : string -> option Order.

Lemma open_notifications item st :
  notifications (openNotification fetchOrder item st).1
  = markRead (id item) (notifications st).
Proof.
  unfold openNotification.
  destruct (truthy (order_id item)) as [oid|]; [|done].
  simpl. destruct (hasOrder oid (Nav.ordersRef st)); [done|].
  by destruct (fetchOrder oid).
Qed.

Lemma open_orders item st :
  orders (openNotification fetchOrder item st).1 = orders st
  \/ exists data, orders (openNotification fetchOrder item st).1
                  = mergeFetched data (orders st).
Proof.
  unfold openNotification.
  destruct (truthy (order_id item)) as [oid|]; [|by left].
  simpl. destruct (hasOrder oid (Nav.ordersRef st)); [by left|].
  destruct (fetchOrder oid) as [data|]; [right; by exists data | by left].
Qed.

(** C8 (as the code has it): opening a notification marks read the entries
    that carry its id and leaves the others as they are, which in an inbox
    with distinct ids is that entry and no other; an order id absent from
    the loaded orders is requested exactly once; a row that the fetch
    returns is put in front of the order list unless the list already has
    an order with its id, in which case the list stays, so that the list
    never gets two entries with one id; and when the fetch yields nothing
    the order list is as before and the entry is read, while the dashboard
    page and the order id are selected and the sidebar and the panel are
    closed all the same: the selected id then resolves to no order of the
    list, unless the list holds it. *)
Theorem openNotification_spec (item : AppNotification) (st : AppState) :
  let st' := (openNotification fetchOrder item st).1 in
  let queries := (openNotification fetchOrder item st).2 in
  (forall k n, notifications st !! k = Some n ->
     notifications st' !! k
     = Some (if bool_decide (id n = id item) then Inbox.setRead n else n))
  /\ (NoDup (map id (notifications st)) -> item ∈ notifications st ->
      forall k n, notifications st !! k = Some n ->
        notifications st' !! k
        = Some (if bool_decide (n = item) then Inbox.setRead item else n))
  /\ (forall oid, truthy (order_id item) = Some oid ->
        (hasOrder oid (Nav.ordersRef st) = false -> queries = [oid])
        /\ (hasOrder oid (Nav.ordersRef st) = true ->
            queries = [] /\ orders st' = orders st))
  /\ (truthy (order_id item) = None -> queries = [] /\ orders st' = orders st)
  /\ (forall oid data, truthy (order_id item) = Some oid ->
        hasOrder oid (Nav.ordersRef st) = false ->
        fetchOrder oid = Some data ->
        (hasOrder (order_id_ data) (orders st) = false ->
         orders st' = data :: orders st)
        /\ (hasOrder (order_id_ data) (orders st) = true ->
            orders st' = orders st)
        /\ hasOrder (order_id_ data) (orders st') = true)
  /\ (NoDup (map order_id_ (orders st)) -> NoDup (map order_id_ (orders st')))
  /\ (forall oid, truthy (order_id item) = Some oid ->
        hasOrder oid (Nav.ordersRef st) = false ->
        fetchOrder oid = None ->
        orders st' = orders st
        /\ (item ∈ notifications st -> Inbox.setRead item ∈ notifications st')
        /\ selectedPage st' = dashboard
        /\ selectedOrderId st' = Some oid
        /\ sidebarOpen st' = false
        /\ isNotificationOpen st' = false
        /\ (hasOrder oid (orders st) = false -> selectedOrder st' = None)
        /\ (hasOrder oid (orders st) = true -> is_Some (selectedOrder st'))).
Proof.
  intros st' queries. subst st' queries.
  assert (Hmark : forall k n, notifications st !! k = Some n ->
            notifications (openNotification fetchOrder item st).1 !! k
            = Some (if bool_decide (id n = id item) then Inbox.setRead n else n)).
  { intros k n Hk. rewrite open_notifications. unfold markRead.
    by rewrite list_lookup_fmap, Hk. }
  split; [exact Hmark|]. split; [|split; [|split; [|split; [|split]]]].
  - intros Hnd Hin k n Hk. rewrite (Hmark k n Hk). f_equal.
    assert (Hn : n ∈ notifications st) by (apply list_elem_of_lookup; eauto).
    destruct (decide (n = item)) as [->|Hne].
    + by rewrite !bool_decide_eq_true_2.
    + rewrite (bool_decide_eq_false_2 (n = item)) by done.
      rewrite bool_decide_eq_false_2; [done|].
      intros Heq. apply Hne. by eapply same_id_same_entry.
  - intros oid Ho. unfold openNotification. rewrite Ho. simpl.
    split; intros Hh; rewrite Hh; simpl; [|done].
    by destruct (fetchOrder oid).
  - intros Ho. unfold openNotification. by rewrite Ho.
  - intros oid data Ho Hh Hf.
    assert (Hord : orders (openNotification fetchOrder item st).1
                   = mergeFetched data (orders st)).
    { unfold openNotification. rewrite Ho. simpl. by rewrite Hh, Hf. }
    rewrite Hord. unfold mergeFetched.
    destruct (hasOrder (order_id_ data) (orders st)) eqn:Hd.
    + by repeat split.
    + repeat split; [done|]. unfold hasOrder. simpl.
      by rewrite bool_decide_eq_true_2.
  - intros Hno. destruct (open_orders item st) as [-> | [data ->]]; [done|].
    by apply mergeFetched_NoDup.
  - intros oid Ho Hh Hf.
    assert (Hst : (openNotification fetchOrder item st).1
                  = setIsNotificationOpen false
                      (navigateToOrder oid
                         (setNotifications (markRead (id item)) st))).
    { unfold openNotification. rewrite Ho. simpl. by rewrite Hh, Hf. }
    rewrite Hst. simpl. repeat split.
    + intros Hin. unfold markRead.
      apply list_elem_of_In, in_map_iff. exists item.
      split; [by rewrite bool_decide_eq_true_2 | by apply list_elem_of_In].
    + intros Habs. unfold selectedOrder. simpl. by apply find_absent.
    + intros Hpres. unfold selectedOrder. simpl.
      unfold hasOrder in Hpres. apply existsb_exists in Hpres as (o & Hin & Ho').
      destruct (List.find _ (orders st)) eqn:Hfind; [by eexists|].
      exfalso. eapply find_none in Hfind; [|exact Hin]. simpl in Hfind.
      congruence.
Qed.

End NavFacts.

(** * Properties of the synchronisation layer *)

(** ** Deduplication along a trace, for any id projection whose known-id set
    only grows, silences known ids and records every id it notifies for. *)

Section AtMostOnce.
Import Sync.

Variable idOf : Delivery -> option string.
Variable known : SyncRefs -> gset string.

Hypothesis known_mono : forall ctx d refs,
  known refs ⊆ known (deliver ctx d refs).1.
Hypothesis known_silent : forall ctx d refs i,
  idOf d = Some i -> i ∈ known refs -> (deliver ctx d refs).2 = [].
Hypothesis notified_recorded : forall ctx d refs i,
  idOf d = Some i -> (deliver ctx d refs).2 <> [] ->
  i ∈ known (deliver ctx d refs).1.

Lemma run_cons refs ctx d ds :
  run refs ((ctx, d) :: ds)
  = ((run (deliver ctx d refs).1 ds).1,
     (d, (deliver ctx d refs).2) :: (run (deliver ctx d refs).1 ds).2).
Proof.
  simpl. destruct (deliver ctx d refs) as [refs1 out]. simpl.
  by destruct (run refs1 ds).
Qed.


Lemma notifiedFor_cons i d out log :
  notifiedFor idOf i ((d, out) :: log)
  = (if bool_decide (idOf d = Some i) && negb (bool_decide (out = []))
     then 1 else 0) + notifiedFor idOf i log.
Proof.
  unfold notifiedFor. simpl.
  by destruct (bool_decide (idOf d = Some i) && negb (bool_decide (out = []))).
Qed.

Lemma run_silent refs ds i :
  i ∈ known refs -> notifiedFor idOf i (run refs ds).2 = 0.
Proof.
  revert refs. induction ds as [|[ctx d] ds IH]; intros refs Hin; [done|].
  rewrite run_cons. simpl. rewrite notifiedFor_cons.
  rewrite IH by (by apply (known_mono ctx d)).
  destruct (decide (idOf d = Some i)) as [Hd|Hd].
  - rewrite (known_silent ctx d refs i Hd Hin).
    by rewrite (bool_decide_eq_true_2 ([] = [])), andb_false_r.
  - by rewrite (bool_decide_eq_false_2 _ Hd).
Qed.


End AtMostOnce.

Section SyncFacts.
Import Sync.

Lemma truthy_Some o s : truthy o = Some s -> o = Some s /\ s <> "".
Proof.
  destruct o as [t|]; simpl; [|done].
  case_bool_decide; [done|]. by intros [= ->].
Qed.

Lemma truthy_of_nonempty s : s <> "" -> truthy (Some s) = Some s.
Proof. intros H. simpl. by rewrite bool_decide_eq_false_2. Qed.

(** *** Comments: the three facts required by [AtMostOnce] *)

Lemma comment_known_mono ctx d refs :
  knownCommentIds refs ⊆ knownCommentIds (deliver ctx d refs).1.
Proof.
  destruct d as [p|r|row|item|row|item]; simpl.
  - unfold ordersChannel. destruct (eventType p); [| |done];
      (destruct (truthy _); [|done]); by destruct (po_status _).
  - done.
  - unfold commentsChannel.
    destruct (truthy (pc_order_id row)); [|done].
    destruct (truthy (pc_id row)); [|done].
    case_bool_decide; [done|].
    case_bool_decide; [simpl; set_solver|].
    destruct (match truthy (pc_author_id row) with Some _ => _ | None => _ end);
      [destruct (_ && _)|]; simpl; set_solver.
  - unfold syncCommentRow. case_bool_decide; [done|].
    simpl. destruct (_ && _); simpl; set_solver.
  - unfold filesChannel.
    destruct (truthy (pf_order_id row)); [|done].
    destruct (truthy (pf_id row)); [|done].
    case_bool_decide; [done|]. by case_bool_decide.
  - unfold syncFileRow. case_bool_decide; [done|].
    simpl. by destruct (_ && _).
Qed.

Lemma comment_known_silent ctx d refs i :
  commentIdOf d = Some i -> i ∈ knownCommentIds refs ->
  deliver ctx d refs = (refs, []).
Proof.
  destruct d as [p|r|row|item|row|item]; simpl; try done.
  - intros Hid Hin. unfold commentsChannel.
    destruct (truthy (pc_order_id row)); [|done].
    destruct (truthy (pc_id row)) as [cid|] eqn:Hc; [|done].
    apply truthy_Some in Hc as [Hc _]. rewrite Hid in Hc. injection Hc as <-.
    by rewrite bool_decide_eq_true_2.
  - intros [= <-] Hin. unfold syncCommentRow.
    by rewrite bool_decide_eq_true_2.
Qed.


Lemma comment_wellformed_recorded ctx d refs i :
  wellFormed d = true -> commentIdOf d = Some i ->
  i ∈ knownCommentIds (deliver ctx d refs).1.
Proof.
  destruct d as [p|r|row|item|row|item]; simpl; try done.
  - intros Hwf Hid. apply andb_true_iff in Hwf as [H1 H2].
    apply bool_decide_eq_true in H1 as [oid H1], H2 as [cid H2].
    unfold commentsChannel. rewrite H1, H2.
    apply truthy_Some in H2 as [H2 _]. rewrite Hid in H2. injection H2 as <-.
    case_bool_decide; [done|].
    case_bool_decide; [simpl; set_solver|].
    destruct (match truthy (pc_author_id row) with Some _ => _ | None => _ end);
      [destruct (_ && _)|]; simpl; set_solver.
  - intros _ [= <-]. unfold syncCommentRow.
    case_bool_decide; [done|].
    simpl. destruct (_ && _); simpl; set_solver.
Qed.

(** *** Files: the same three facts *)

Lemma file_known_mono ctx d refs :
  knownFileIds refs ⊆ knownFileIds (deliver ctx d refs).1.
Proof.
  destruct d as [p|r|row|item|row|item]; simpl.
  - unfold ordersChannel. destruct (eventType p); [| |done];
      (destruct (truthy _); [|done]); by destruct (po_status _).
  - done.
  - unfold commentsChannel.
    destruct (truthy (pc_order_id row)); [|done].
    destruct (truthy (pc_id row)); [|done].
    case_bool_decide; [done|].
    case_bool_decide; [done|].
    by destruct (match truthy (pc_author_id row) with Some _ => _ | None => _ end);
      [destruct (_ && _)|].
  - unfold syncCommentRow. case_bool_decide; [done|].
    simpl. by destruct (_ && _).
  - unfold filesChannel.
    destruct (truthy (pf_order_id row)); [|done].
    destruct (truthy (pf_id row)); [|done].
    case_bool_decide; [done|]. case_bool_decide; simpl; set_solver.
  - unfold syncFileRow. case_bool_decide; [done|].
    simpl. destruct (_ && _); simpl; set_solver.
Qed.

Lemma file_known_silent ctx d refs i :
  fileIdOf d = Some i -> i ∈ knownFileIds refs ->
  deliver ctx d refs = (refs, []).
Proof.
  destruct d as [p|r|row|item|row|item]; simpl; try done.
  - intros Hid Hin. unfold filesChannel.
    destruct (truthy (pf_order_id row)); [|done].
    destruct (truthy (pf_id row)) as [fid|] eqn:Hc; [|done].
    apply truthy_Some in Hc as [Hc _]. rewrite Hid in Hc. injection Hc as <-.
    by rewrite bool_decide_eq_true_2.
  - intros [= <-] Hin. unfold syncFileRow.
    by rewrite bool_decide_eq_true_2.
Qed.


Lemma file_wellformed_recorded ctx d refs i :
  wellFormed d = true -> fileIdOf d = Some i ->
  i ∈ knownFileIds (deliver ctx d refs).1.
Proof.
  destruct d as [p|r|row|item|row|item]; simpl; try done.
  - intros Hwf Hid. apply andb_true_iff in Hwf as [H1 H2].
    apply bool_decide_eq_true in H1 as [oid H1], H2 as [fid H2].
    unfold filesChannel. rewrite H1, H2.
    apply truthy_Some in H2 as [H2 _]. rewrite Hid in H2. injection H2 as <-.
    case_bool_decide; [done|].
    case_bool_decide; simpl; set_solver.
  - intros _ [= <-]. unfold syncFileRow.
    case_bool_decide; [done|].
    simpl. destruct (_ && _); simpl; set_solver.
Qed.


(** *** Orders *)

Lemma deliver_observe ctx refs src oid s cid :
  oid <> "" ->
  deliver ctx (observe src oid s cid) refs
  = (setStatus oid s refs,
     diffStatus ctx oid
       (match orderStatusMap refs !! oid with
        | Some p => Some p
        | None => fallbackStatus src
        end) s cid).
Proof.
  intros Hne. destruct src as [oldRow|oldRow|]; simpl.
  - unfold ordersChannel. simpl. rewrite bool_decide_eq_false_2 by done. done.
  - unfold ordersChannel. simpl. rewrite bool_decide_eq_false_2 by done. done.
  - unfold syncOrderRow. simpl. by destruct (orderStatusMap refs !! oid).
Qed.

Lemma diffStatus_changed ctx oid p s cid :
  p <> s ->
  diffStatus ctx oid (Some p) s cid
  = if isClientOwn ctx cid then [statusChanged ctx oid p s] else [].
Proof. intros H. simpl. by rewrite bool_decide_eq_true_2. Qed.

Lemma diffStatus_same ctx oid s cid : diffStatus ctx oid (Some s) s cid = [].
Proof. simpl. rewrite bool_decide_eq_false_2; [done|]. by intros H. Qed.

(** X28: with [S1] recorded for the order and [S2 <> S1] observed, the
    first observation (realtime or pulled) notifies exactly an entitled
    viewer, exactly once, and sets the map entry to [S2] whether or not it
    notified; a second observation of the same status through either
    source, handled on the refs as the first one left them, notifies
    nobody. *)
Theorem status_transition_notifies_once
    (ctx1 ctx2 : SyncCtx) (refs : SyncRefs) (src1 src2 : Source)
    (oid : string) (S1 S2 : Status) (cid : option string) :
  oid <> "" ->
  orderStatusMap refs !! oid = Some S1 ->
  S2 <> S1 ->
  let r1 := deliver ctx1 (observe src1 oid S2 cid) refs in
  let r2 := deliver ctx2 (observe src2 oid S2 cid) r1.1 in
  r1.2 = (if isClientOwn ctx1 cid then [statusChanged ctx1 oid S1 S2] else [])
  /\ r2.2 = []
  /\ length (r1.2 ++ r2.2) = (if isClientOwn ctx1 cid then 1 else 0)
  /\ orderStatusMap r1.1 = <[oid := S2]> (orderStatusMap refs)
  /\ orderStatusMap r1.1 !! oid = Some S2
  /\ orderStatusMap r2.1 !! oid = Some S2.
Proof.
  intros Hne Hprev Hdiff r1 r2. subst r1 r2.
  assert (Hl : orderStatusMap (setStatus oid S2 refs) !! oid = Some S2).
  { simpl. apply lookup_insert_eq. }
  rewrite (deliver_observe ctx1 refs) by done. cbn [fst snd].
  rewrite (deliver_observe ctx2) by done. cbn [fst snd].
  rewrite Hprev, Hl, diffStatus_same, diffStatus_changed by done.
  repeat split; try done.
  - rewrite app_nil_r. by destruct (isClientOwn ctx1 cid).
  - simpl. apply lookup_insert_eq.
Qed.

(** C3 (as the code has it): with no map entry for the order, a pulled
    row never notifies, and a realtime payload notifies only when its old
    row image carries a status different from the new one, which the
    callback then takes as the previous status; in every case the map
    holds the observed status afterwards. *)
Theorem unrecorded_order_observation
    (ctx : SyncCtx) (refs : SyncRefs) (src : Source)
    (oid : string) (S2 : Status) (cid : option string) :
  oid <> "" ->
  orderStatusMap refs !! oid = None ->
  let r := deliver ctx (observe src oid S2 cid) refs in
  orderStatusMap r.1 !! oid = Some S2
  /\ (src = ViaPull -> r.2 = [])
  /\ (fallbackStatus src = None \/ fallbackStatus src = Some S2 -> r.2 = [])
  /\ (forall S0, fallbackStatus src = Some S0 -> S0 <> S2 ->
        r.2 = if isClientOwn ctx cid then [statusChanged ctx oid S0 S2] else []).
Proof.
  intros Hne Hnone r. subst r.
  rewrite deliver_observe by done. cbn [fst snd]. rewrite Hnone.
  repeat split.
  - simpl. apply lookup_insert_eq.
  - by intros ->.
  - intros [-> | ->]; [done | apply diffStatus_same].
  - intros S0 -> Hd. by apply diffStatus_changed.
Qed.

(** C4: for a recorded status different from the observed one, a client
    viewer is notified exactly when the row's [client_id] is the viewer's
    id, and an admin or staff viewer is always notified. *)
Theorem status_notification_visibility
    (ctx : SyncCtx) (refs : SyncRefs) (src : Source)
    (oid : string) (S1 S2 : Status) (cid : option string) :
  oid <> "" ->
  orderStatusMap refs !! oid = Some S1 ->
  S1 <> S2 ->
  let out := (deliver ctx (observe src oid S2 cid) refs).2 in
  let vid := profile_id (profile ctx) in
  (role (profile ctx) = client ->
     (cid = Some vid -> out = [statusChanged ctx oid S1 S2])
     /\ (cid <> Some vid -> out = []))
  /\ (role (profile ctx) = admin \/ role (profile ctx) = staff ->
        out = [statusChanged ctx oid S1 S2]).
Proof.
  intros Hne Hprev Hdiff out vid. subst out vid.
  rewrite deliver_observe by done. cbn [snd]. rewrite Hprev.
  rewrite diffStatus_changed by done.
  unfold isClientOwn. split.
  - intros ->. split; intros Hc.
    + by rewrite bool_decide_eq_true_2.
    + by rewrite bool_decide_eq_false_2.
  - by intros [-> | ->].
Qed.

(** *** Comments and files: wording and self-skip *)

Lemma newComment_title ctx oid : n_title (newComment ctx oid) = "New Comment".
Proof. reflexivity. Qed.

(** The realtime callback words a comment by the viewer's role and the
    author's role. *)
Lemma commentsChannel_wording ctx row refs oid cid :
  truthy (pc_order_id row) = Some oid ->
  truthy (pc_id row) = Some cid ->
  cid ∉ knownCommentIds refs ->
  pc_author_id row <> Some (profile_id (profile ctx)) ->
  (forall aid a, pc_author_id row = Some aid -> aid <> "" ->
     profilesById ctx !! aid = Some a ->
     role (profile ctx) <> client -> role a = client ->
     (commentsChannel ctx row refs).2 = [clientMessage ctx a oid])
  /\ (role (profile ctx) = client ->
      (commentsChannel ctx row refs).2 = [newComment ctx oid]).
Proof.
  intros Ho Hc Hnew Hself. unfold commentsChannel. rewrite Ho, Hc.
  rewrite (bool_decide_eq_false_2 _ Hnew), (bool_decide_eq_false_2 _ Hself).
  split.
  - intros aid a -> Hne Ha Hv Hr. rewrite (truthy_of_nonempty _ Hne), Ha.
    by rewrite (bool_decide_eq_true_2 _ Hv), (bool_decide_eq_true_2 _ Hr).
  - intros Hv.
    destruct (match truthy (pc_author_id row) with Some _ => _ | None => _ end);
      [|done].
    rewrite (bool_decide_eq_false_2 (role (profile ctx) <> client)); [done|].
    by intros H.
Qed.

(** A pulled comment is worded generically whoever wrote it and whoever
    views it. *)
Lemma syncCommentRow_wording ctx item refs :
  (syncCommentRow ctx item refs).2 = []
  \/ (syncCommentRow ctx item refs).2 = [newComment ctx (cr_order_id item)].
Proof.
  unfold syncCommentRow. case_bool_decide; [by left|].
  simpl. case_bool_decide; [by right | by left].
Qed.

(** Whatever is delivered, a client viewer is never shown "Client
    Message", and a comment notification shown to a client is the generic
    one, a function of the order alone. *)
Lemma client_viewer_comment_privacy ctx d refs n :
  role (profile ctx) = client ->
  n ∈ (deliver ctx d refs).2 ->
  n_title n <> "Client Message"
  /\ (is_Some (commentIdOf d) -> exists oid, n = newComment ctx oid).
Proof.
  intros Hv.
  destruct d as [p|r|row|item|row|item]; simpl.
  - unfold ordersChannel.
    destruct (eventType p); try (by intros ?%elem_of_nil);
      (destruct (truthy _); [|by intros ?%elem_of_nil]);
      (destruct (po_status _); [|by intros ?%elem_of_nil]); simpl;
      unfold diffStatus;
      (destruct (match orderStatusMap refs !! _ with Some _ => _ | None => _ end);
         [|by intros ?%elem_of_nil]);
      (case_bool_decide; [|by intros ?%elem_of_nil]);
      (destruct (isClientOwn _ _); [|by intros ?%elem_of_nil]);
      intros ->%list_elem_of_singleton; (split; [done | by intros [? ?]]).
  - unfold syncOrderRow, diffStatus. simpl.
    destruct (orderStatusMap refs !! _); [|by intros ?%elem_of_nil].
    case_bool_decide; [|by intros ?%elem_of_nil].
    destruct (isClientOwn _ _); [|by intros ?%elem_of_nil].
    intros ->%list_elem_of_singleton. split; [done | by intros [? ?]].
  - unfold commentsChannel.
    destruct (truthy (pc_order_id row)) as [oid|]; [|by intros ?%elem_of_nil].
    destruct (truthy (pc_id row)); [|by intros ?%elem_of_nil].
    case_bool_decide; [by intros ?%elem_of_nil|].
    case_bool_decide; [by intros ?%elem_of_nil|].
    rewrite (bool_decide_eq_false_2 (role (profile ctx) <> client))
      by (by intros Hx).
    destruct (match truthy (pc_author_id row) with Some _ => _ | None => _ end);
      simpl; intros ->%list_elem_of_singleton; (split; [done | by exists oid]).
  - destruct (syncCommentRow_wording ctx item refs) as [-> | ->];
      [by intros ?%elem_of_nil|].
    intros ->%list_elem_of_singleton. split; [done | by eexists].
  - unfold filesChannel.
    destruct (truthy (pf_order_id row)); [|by intros ?%elem_of_nil].
    destruct (truthy (pf_id row)); [|by intros ?%elem_of_nil].
    case_bool_decide; [by intros ?%elem_of_nil|].
    case_bool_decide; [by intros ?%elem_of_nil|].
    simpl. intros ->%list_elem_of_singleton. split; [done | by intros [? ?]].
  - unfold syncFileRow. case_bool_decide; [by intros ?%elem_of_nil|].
    simpl. case_bool_decide; [|by intros ?%elem_of_nil].
    intros ->%list_elem_of_singleton. split; [done | by intros [? ?]].
Qed.

(** C5: a comment by the client Ann, first seen by the staff viewer Sam
    through the pull of [syncEvents], is announced as "New Comment"; the
    same comment first seen through the realtime callback is announced as
    "Client Message" naming Ann. *)
Theorem pulled_client_comment_is_generic :
  (deliver (Fixtures.ctxOf Fixtures.sam) (PullComment Fixtures.annComment)
           Fixtures.fresh).2
  = [mkNotify "New Comment" "New comment added on ORD-20240101-AB12" (Some "o-1")]
  /\ (deliver (Fixtures.ctxOf Fixtures.sam) (PushComment Fixtures.annCommentPayload)
              Fixtures.fresh).2
     = [mkNotify "Client Message" "Ann Client sent a comment on ORD-20240101-AB12"
                 (Some "o-1")].
Proof. split; vm_compute; reflexivity. Qed.

(** C6 (as the code has it): a comment whose [author_id], or a file whose
    [uploaded_by], is the viewer's id never notifies, through the realtime
    callback or through the pull. *)
Theorem own_comments_and_files_never_notify
    (ctx : SyncCtx) (d : Delivery) (refs : SyncRefs) :
  actorOf d = Some (profile_id (profile ctx)) ->
  (deliver ctx d refs).2 = [].
Proof.
  destruct d as [p|r|row|item|row|item]; simpl; try done; intros Hself.
  - unfold commentsChannel.
    destruct (truthy (pc_order_id row)); [|done].
    destruct (truthy (pc_id row)); [|done].
    case_bool_decide; [done|]. by rewrite bool_decide_eq_true_2.
  - unfold syncCommentRow. case_bool_decide; [done|].
    simpl. by rewrite bool_decide_eq_false_2 by (by intros Hx).
  - unfold filesChannel.
    destruct (truthy (pf_order_id row)); [|done].
    destruct (truthy (pf_id row)); [|done].
    case_bool_decide; [done|]. by rewrite bool_decide_eq_true_2.
  - unfold syncFileRow. case_bool_decide; [done|].
    simpl. by rewrite bool_decide_eq_false_2 by (by intros Hx).
Qed.

End SyncFacts.

(** * Scenarios: the theorems at concrete inputs *)

Section Scenarios.
Import Sync Fixtures.


Example both_sources_one_notification :
  (run fresh [(ctxOf ann, PushFile samFilePayload);
              (ctxOf ann, PullFile samFile)]).2
  = [(PushFile samFilePayload,
      [mkNotify "New File Uploaded" "brief.pdf was uploaded to ORD-20240101-AB12"
                (Some "o-1")]);
     (PullFile samFile, [])].
Proof. vm_compute. reflexivity. Qed.

(** Ann's order goes from not started to in progress; the realtime
    callback sees it first, the pull second. *)
Lemma status_transition_notifies_once_witness :
  (deliver (ctxOf ann)
     (observe (ViaUpdate (mkPartialOrder (Some "o-1") None None)) "o-1"
              in_progress (Some "u-ann")) seeded).2
  = (if isClientOwn (ctxOf ann) (Some "u-ann")
     then [statusChanged (ctxOf ann) "o-1" not_started in_progress] else [])
  /\ (deliver (ctxOf ann) (observe ViaPull "o-1" in_progress (Some "u-ann"))
        (deliver (ctxOf ann)
           (observe (ViaUpdate (mkPartialOrder (Some "o-1") None None)) "o-1"
                    in_progress (Some "u-ann")) seeded).1).2 = [].
Proof.
  destruct (status_transition_notifies_once (ctxOf ann) (ctxOf ann) seeded
              (ViaUpdate (mkPartialOrder (Some "o-1") None None)) ViaPull
              "o-1" not_started in_progress (Some "u-ann"))
    as (H1 & H2 & _).
  - discriminate.
  - vm_compute. reflexivity.
  - discriminate.
  - split; [exact H1 | exact H2].
Defined.

Example seeded_transition_scenario :
  (deliver (ctxOf ann)
     (PushOrder (mkOrdersPayload UPDATE (mkPartialOrder (Some "o-1") None None)
                   (mkPartialOrder (Some "o-1") (Some in_progress) (Some "u-ann"))))
     seeded).2
  = [mkNotify "Order Status Changed"
       "ORD-20240101-AB12 moved from Not Started to In Progress" (Some "o-1")].
Proof. vm_compute. reflexivity. Qed.

(** C3, refuted as stated: no status is recorded for the order, yet the
    realtime callback notifies, taking the old row image's status as the
    previous one. *)
Lemma unrecorded_order_push_notifies :
  orderStatusMap fresh !! "o-1" = None
  /\ (deliver (ctxOf ada)
        (PushOrder (mkOrdersPayload UPDATE
                      (mkPartialOrder (Some "o-1") (Some not_started) (Some "u-ann"))
                      (mkPartialOrder (Some "o-1") (Some completed) (Some "u-ann"))))
        fresh).2
     = [mkNotify "Order Status Changed"
          "ORD-20240101-AB12 moved from Not Started to Completed" (Some "o-1")].
Proof. split; vm_compute; reflexivity. Qed.

Lemma unrecorded_order_observation_witness :
  orderStatusMap
    (deliver (ctxOf ada) (observe ViaPull "o-1" completed (Some "u-ann")) fresh).1
    !! "o-1" = Some completed
  /\ (deliver (ctxOf ada) (observe ViaPull "o-1" completed (Some "u-ann")) fresh).2
     = [].
Proof.
  destruct (unrecorded_order_observation (ctxOf ada) fresh ViaPull "o-1"
              completed (Some "u-ann")) as (H1 & H2 & _).
  - discriminate.
  - vm_compute. reflexivity.
  - split; [exact H1 | apply H2; reflexivity].
Defined.

(** Bob, a client, views a transition of Ann's order. *)
Lemma status_notification_visibility_witness :
  (deliver (ctxOf bob) (observe ViaPull "o-1" on_hold (Some "u-ann")) seeded).2
  = [].
Proof.
  destruct (status_notification_visibility (ctxOf bob) seeded ViaPull "o-1"
              not_started on_hold (Some "u-ann")) as (H1 & _).
  - discriminate.
  - vm_compute. reflexivity.
  - discriminate.
  - destruct (H1 eq_refl) as (_ & Hother). apply Hother. discriminate.
Defined.

(** C6, refuted as stated: the admin Ada changes the status of an order
    herself; the change comes back through the realtime callback, and
    through the pull, and she is notified of it. *)
Lemma own_status_update_notifies :
  (deliver (ctxOf ada) (PushOrder (handleStatusUpdate ada order1 in_progress))
           seeded).2
  = [mkNotify "Order Status Changed"
       "ORD-20240101-AB12 moved from Not Started to In Progress" (Some "o-1")]
  /\ (deliver (ctxOf ada) (PullOrder (rowOf (withStatus in_progress order1)))
              seeded).2
     = [mkNotify "Order Status Changed"
          "ORD-20240101-AB12 moved from Not Started to In Progress" (Some "o-1")].
Proof. split; vm_compute; reflexivity. Qed.

Lemma own_comments_and_files_never_notify_witness :
  (deliver (ctxOf ann) (PushComment annCommentPayload) fresh).2 = []
  /\ (deliver (ctxOf sam) (PullFile samFile) fresh).2 = [].
Proof.
  split.
  - apply (own_comments_and_files_never_notify (ctxOf ann)
             (PushComment annCommentPayload) fresh). reflexivity.
  - apply (own_comments_and_files_never_notify (ctxOf sam)
             (PullFile samFile) fresh). reflexivity.
Defined.

(** A 51st notification pushed on a full inbox. *)
Lemma pushNotification_prepends_and_caps_witness :
  exists oldest,
    Inbox.sampleInbox 50 = take 49 (Inbox.sampleInbox 50) ++ [oldest]
    /\ Inbox.pushNotification "n-50" t1 "New Comment" "m" None (Inbox.sampleInbox 50)
       = Inbox.newItem "n-50" t1 "New Comment" "m" None
           :: take 49 (Inbox.sampleInbox 50).
Proof.
  destruct (pushNotification_prepends_and_caps "n-50" t1 "New Comment" "m" None
              (Inbox.sampleInbox 50)) as (_ & _ & _ & _ & _ & Hfull).
  apply Hfull. reflexivity.
Defined.

(** The oldest of the 50 entries is read, so evicting it loses no unread
    entry. *)
Lemma pushNotification_unread_count_witness :
  Inbox.unreadNotificationCount
    (Inbox.pushNotification "n-50" t1 "New Comment" "m" None (Inbox.sampleInbox 50))
  = S (Inbox.unreadNotificationCount (Inbox.sampleInbox 50)).
Proof.
  destruct (pushNotification_unread_count "n-50" t1 "New Comment" "m" None
              (Inbox.sampleInbox 50)) as (_ & _ & Hcount & _).
  apply Hcount. vm_compute. repeat constructor.
Defined.

(** The notification about order o-9, which is not loaded and can no
    longer be fetched. *)
Lemma openNotification_spec_witness :
  let item := mkNotification "n-2" "New File Uploaded" "m2" t0 false (Some "o-9") in
  let st' := (Nav.openNotification (fun _ => None) item appState).1 in
  (Nav.openNotification (fun _ => None) item appState).2 = ["o-9"]
  /\ Nav.notifications st' !! 0 = Some (mkNotification "n-3" "New Comment" "m3" t1 false (Some "o-1"))
  /\ Nav.notifications st' !! 1 = Some (Inbox.setRead item)
  /\ Nav.orders st' = Nav.orders appState
  /\ Nav.selectedPage st' = dashboard
  /\ Nav.selectedOrderId st' = Some "o-9"
  /\ Nav.selectedOrder st' = None.
Proof.
  intros item st'. subst st'.
  destruct (openNotification_spec (fun _ => None) item appState)
    as (_ & Hone & Hq & _ & _ & _ & Hmiss).
  assert (Hnd : NoDup (map id (Nav.notifications appState))).
  { apply (bool_decide_unpack _). vm_compute. exact I. }
  assert (Hin : item ∈ Nav.notifications appState).
  { apply (bool_decide_unpack _). vm_compute. exact I. }
  destruct (Hq "o-9" eq_refl) as (Hfetch & _).
  destruct (Hmiss "o-9" eq_refl eq_refl eq_refl)
    as (Ho & _ & Hp & Hs & _ & _ & Hn & _).
  split; [apply Hfetch; reflexivity|].
  split; [exact (Hone Hnd Hin 0 _ eq_refl)|].
  split; [exact (Hone Hnd Hin 1 _ eq_refl)|].
  split; [exact Ho|]. split; [exact Hp|]. split; [exact Hs|].
  apply Hn. reflexivity.
Defined.

(** C8, refuted as stated: the viewer is on the reports page with the
    sidebar open and no order selected; the order of the notification is
    not loaded and the fetch yields nothing.  The open action moves to the
    dashboard page, selects the order id and closes the sidebar all the
    same. *)
Lemma open_missing_order_still_navigates :
  Nav.selectedPage appState = reports
  /\ Nav.selectedOrderId appState = None
  /\ Nav.sidebarOpen appState = true
  /\ Nav.hasOrder "o-9" (Nav.ordersRef appState) = false
  /\ (Nav.openNotification (fun _ => None) Samples.noteAboutMissing appState).2
     = ["o-9"]
  /\ Nav.selectedPage
       (Nav.openNotification (fun _ => None) Samples.noteAboutMissing appState).1
     = dashboard
  /\ Nav.selectedOrderId
       (Nav.openNotification (fun _ => None) Samples.noteAboutMissing appState).1
     = Some "o-9"
  /\ Nav.sidebarOpen
       (Nav.openNotification (fun _ => None) Samples.noteAboutMissing appState).1
     = false.
Proof. repeat split; vm_compute; reflexivity. Qed.

Lemma markAllNotificationsRead_idempotent_witness :
  Inbox.markAllNotificationsRead (Inbox.markAllNotificationsRead inboxOf3)
  = Inbox.markAllNotificationsRead inboxOf3.
Proof.
  exact (proj1 (proj2 (markAllNotificationsRead_idempotent inboxOf3))).
Defined.

End Scenarios.

(** * Pagination *)

Section PagingFacts.
Import Paging.

Context {A : Type}.
Implicit Types l : list A.

Lemma take_plus l a b : take (a + b) l = take a l ++ take b (drop a l).
Proof.
  revert l. induction a as [|a IH]; intros l; simpl.
  - by rewrite drop_0.
  - destruct l as [|x l]; simpl; [by rewrite take_nil | by rewrite IH].
Qed.

Lemma chunks_take l k n :
  concat (map (fun p => take k (drop (p * k) l)) (seq 0 n)) = take (n * k) l.
Proof.
  induction n as [|n IH]; [done|].
  rewrite seq_S, map_app, concat_app, IH. simpl.
  rewrite app_nil_r, <- take_plus. f_equal. lia.
Qed.

Lemma pages_as_chunks l n :
  map (paginatedOrders l) (seq 1 n)
  = map (fun p => take PAGE_SIZE (drop (p * PAGE_SIZE) l)) (seq 0 n).
Proof.
  rewrite <- seq_shift, map_map. done.
Qed.

Lemma totalPages_covers len : len <= totalPages len * PAGE_SIZE.
Proof.
  unfold totalPages, PAGE_SIZE. change (10 - 1) with 9.
  pose proof (Nat.div_mod_eq (len + 9) 10) as Hd.
  pose proof (Nat.mod_upper_bound (len + 9) 10 ltac:(lia)) as Hm.
  lia.
Qed.

Lemma totalPages_tight len : 0 < len -> (totalPages len - 1) * PAGE_SIZE < len.
Proof.
  unfold totalPages, PAGE_SIZE. change (10 - 1) with 9. intros Hpos.
  pose proof (Nat.div_mod_eq (len + 9) 10) as Hd.
  pose proof (Nat.mod_upper_bound (len + 9) 10 ltac:(lia)) as Hm.
  lia.
Qed.

(** X1: The pages 1 .. [totalPages], one after the other, are the filtered
    list: every row is on exactly one page, in order. *)
Theorem pages_partition l :
  concat (map (paginatedOrders l) (seq 1 (totalPages (length l)))) = l.
Proof.
  rewrite pages_as_chunks, chunks_take.
  apply take_ge, totalPages_covers.
Qed.

(** X2: No page holds more than [PAGE_SIZE] rows; a page beyond [totalPages]
    (and page 0) is empty; every page from 1 to [totalPages] of a non-empty
    list shows at least one row, and every page before the last is full. *)
Theorem page_bounds l (page : nat) :
  length (paginatedOrders l page) <= PAGE_SIZE
  /\ (totalPages (length l) < page -> paginatedOrders l page = [])
  /\ (page = 0 -> paginatedOrders l page = [])
  /\ (l <> [] -> 1 <= page <= totalPages (length l) ->
      paginatedOrders l page <> [])
  /\ (1 <= page < totalPages (length l) ->
      length (paginatedOrders l page) = PAGE_SIZE).
Proof.
  split; [|split; [|split; [|split]]].
  - destruct page; simpl; [lia|]. rewrite length_take. lia.
  - intros Hgt. destruct page as [|p]; [done|]. simpl.
    rewrite drop_ge; [done|].
    pose proof (totalPages_covers (length l)) as Hc.
    set (t := totalPages (length l)) in *. unfold PAGE_SIZE in *.
    assert (t * 10 <= p * 10) by (apply Nat.mul_le_mono_r; lia).
    lia.
  - by intros ->.
  - intros Hne [H1 H2]. destruct page as [|p]; [lia|]. simpl.
    assert (0 < length l) as Hpos by (destruct l; [done | simpl; lia]).
    pose proof (totalPages_tight (length l) Hpos) as Ht.
    intros Hnil. apply (f_equal length) in Hnil.
    rewrite length_take, length_drop in Hnil. cbn [length] in Hnil.
    set (t := totalPages (length l)) in *. unfold PAGE_SIZE in *.
    assert (p * 10 <= (t - 1) * 10) by (apply Nat.mul_le_mono_r; lia).
    lia.
  - intros [H1 H2]. destruct page as [|p]; [lia|]. simpl.
    rewrite length_take, length_drop.
    destruct (decide (length l = 0)) as [H0|H0].
    + rewrite H0 in H2. vm_compute in H2. lia.
    + pose proof (totalPages_tight (length l) ltac:(lia)) as Ht.
      set (t := totalPages (length l)) in *. unfold PAGE_SIZE in *.
      assert (S p * 10 <= (t - 1) * 10) by (apply Nat.mul_le_mono_r; lia).
      lia.
Qed.

End PagingFacts.

(** X3: [totalPages] is at least 1.  From a page that is at least 1, Prev
    leads to a page between 1 and the current one, so to a page in
    1 .. [totalPages] when the current one is, and stops at 1; Next, from a
    page in 1 .. [totalPages], leads to a page in that range and stops at
    [totalPages]; the clamping effect leads to a page in 1 .. [totalPages]
    from any page that is at least 1: it brings a page left beyond the end
    by a shrinking list back to the last page and changes no page within
    range. *)
Theorem page_navigation_in_range (len page : nat) :
  1 <= page ->
  let total := Paging.totalPages len in
  1 <= total
  /\ 1 <= Paging.prevPage page <= page
  /\ Paging.prevPage 1 = 1
  /\ (page <= total -> page <= Paging.nextPage total page <= total)
  /\ Paging.nextPage total total = total
  /\ 1 <= Paging.clampPage total page <= total
  /\ (page <= total -> Paging.clampPage total page = page)
  /\ (total < page -> Paging.clampPage total page = total)
  /\ Paging.clampPage total (Paging.clampPage total page)
     = Paging.clampPage total page
  /\ (page <= total -> 1 <= Paging.prevPage page <= total)
  /\ 1 <= Paging.prevPage (Paging.clampPage total page) <= total.
Proof.
  intros Hpage total.
  assert (Htot : 1 <= total) by (unfold total, Paging.totalPages; lia).
  unfold Paging.prevPage, Paging.nextPage, Paging.clampPage.
  repeat split; try lia.
  - destruct (Nat.ltb_spec total page); lia.
  - destruct (Nat.ltb_spec total page); lia.
  - intros Hle. destruct (Nat.ltb_spec total page); lia.
  - intros Hgt. destruct (Nat.ltb_spec total page); lia.
  - destruct (Nat.ltb_spec total page) as [H1|H1].
    + destruct (Nat.ltb_spec total total); lia.
    + destruct (Nat.ltb_spec total page); lia.
  - destruct (Nat.ltb_spec total page); lia.
Qed.

(** * Maps built by [forEach ... set]: the last row for a key wins *)

Section BuiltMaps.
Context {X V : Type}.
Variables (key : X -> string) (val : X -> V).

Let build (l : list X) (m : gmap string V) : gmap string V :=
  fold_left (fun m x => <[key x := val x]> m) l m.

Lemma build_absent l m i :
  i ∉ map key l -> build l m !! i = m !! i.
Proof.
  revert m. induction l as [|x l IH]; intros m Hni; [done|].
  simpl in *. apply not_elem_of_cons in Hni as [Hne Hni].
  rewrite IH by done. by rewrite lookup_insert_ne.
Qed.

Lemma build_sound l m i y :
  build l m !! i = Some y ->
  (exists x, x ∈ l /\ key x = i /\ val x = y) \/ m !! i = Some y.
Proof.
  revert m. induction l as [|x l IH]; intros m Hl; [by right|].
  simpl in Hl. apply IH in Hl as [(x' & Hin & Hk & Hv) | Hl].
  - left. exists x'. split; [by apply elem_of_cons; right | done].
  - destruct (decide (key x = i)) as [Heq|Hne].
    + rewrite Heq, lookup_insert_eq in Hl. injection Hl as <-.
      left. exists x. split; [apply elem_of_cons; by left | done].
    + rewrite lookup_insert_ne in Hl by done. by right.
Qed.

Lemma build_keeps l m i : is_Some (m !! i) -> is_Some (build l m !! i).
Proof.
  revert m. induction l as [|x l IH]; intros m Hs; [done|].
  simpl. apply IH. destruct (decide (key x = i)) as [<-|Hne].
  - rewrite lookup_insert_eq. by eexists.
  - by rewrite lookup_insert_ne.
Qed.

Lemma build_member l m x : x ∈ l -> is_Some (build l m !! key x).
Proof.
  revert m. induction l as [|a l IH]; intros m Hin.
  - by apply elem_of_nil in Hin.
  - simpl. apply elem_of_cons in Hin as [->|Hin]; [|by apply IH].
    apply build_keeps. rewrite lookup_insert_eq. by eexists.
Qed.

Lemma build_distinct l m x :
  NoDup (map key l) -> x ∈ l -> build l m !! key x = Some (val x).
Proof.
  revert m. induction l as [|a l IH]; intros m Hnd Hin.
  - by apply elem_of_nil in Hin.
  - simpl in *. apply NoDup_cons in Hnd as [Ha Hnd].
    apply elem_of_cons in Hin as [->|Hin]; [|by apply IH].
    rewrite build_absent by done. apply lookup_insert_eq.
Qed.

End BuiltMaps.

(** * Profiles *)

Lemma filter_split_length {T : Type} (f g : T -> bool) (l : list T) :
  (forall x, g x = negb (f x)) ->
  length (List.filter f l) + length (List.filter g l) = length l.
Proof.
  intros Hfg. induction l as [|x l IH]; [done|].
  simpl. rewrite Hfg. destruct (f x); simpl; lia.
Qed.

(** X4: [profilesById] maps an id only to a loaded profile that carries this
    id; every loaded profile's id has an entry; and when the loaded ids are
    distinct the entry for a profile's id is that profile. *)
Theorem profilesById_lookup (profiles : list Profile) :
  (forall i p, Directory.profilesById profiles !! i = Some p ->
     p ∈ profiles /\ profile_id p = i)
  /\ (forall i, i ∉ map profile_id profiles ->
        Directory.profilesById profiles !! i = None)
  /\ (forall p, p ∈ profiles ->
        is_Some (Directory.profilesById profiles !! profile_id p))
  /\ (NoDup (map profile_id profiles) ->
      forall p, p ∈ profiles ->
        Directory.profilesById profiles !! profile_id p = Some p).
Proof.
  unfold Directory.profilesById. repeat split.
  - apply (build_sound profile_id (fun p => p)) in H
      as [(x & Hin & Hk & ->) | H]; [done | by rewrite lookup_empty in H].
  - apply (build_sound profile_id (fun p => p)) in H
      as [(x & Hin & Hk & ->) | H]; [done | by rewrite lookup_empty in H].
  - intros i Hni. by rewrite (build_absent profile_id (fun p => p)).
  - intros p Hin. by apply (build_member profile_id (fun p => p)).
  - intros Hnd p Hin. by apply (build_distinct profile_id (fun p => p)).
Qed.

(** X5: [clients] and [staffMembers] split the loaded profiles: a profile is
    listed among the clients exactly when its role is client, among the
    staff members exactly when it is admin or staff, never in both, and the
    two lists together are as long as [profiles]. *)
Theorem clients_staff_split (profiles : list Profile) :
  (forall p, p ∈ Directory.clients profiles <-> p ∈ profiles /\ role p = client)
  /\ (forall p, p ∈ Directory.staffMembers profiles
                <-> p ∈ profiles /\ (role p = admin \/ role p = staff))
  /\ (forall p, ~ (p ∈ Directory.clients profiles
                   /\ p ∈ Directory.staffMembers profiles))
  /\ length (Directory.clients profiles) + length (Directory.staffMembers profiles)
     = length profiles.
Proof.
  assert (Hc : forall p, p ∈ Directory.clients profiles
                         <-> p ∈ profiles /\ role p = client).
  { intros p. unfold Directory.clients.
    rewrite !list_elem_of_In, filter_In, bool_decide_eq_true. done. }
  assert (Hs : forall p, p ∈ Directory.staffMembers profiles
                         <-> p ∈ profiles /\ (role p = admin \/ role p = staff)).
  { intros p. unfold Directory.staffMembers.
    rewrite !list_elem_of_In, filter_In, orb_true_iff, !bool_decide_eq_true. done. }
  split; [exact Hc|]. split; [exact Hs|]. split.
  - intros p [[_ H1]%Hc [_ H2]%Hs]. rewrite H1 in H2. by destruct H2.
  - unfold Directory.clients, Directory.staffMembers.
    apply filter_split_length. intros p. by destruct (role p).
Qed.

(** * Toasts *)

(** X6: [removeToast] drops exactly the toasts with the given id and keeps the
    others in order; removing twice is removing once; and removing the id
    just added, when no older toast has it, gives back the previous list. *)
Theorem removeToast_spec (tid : string) (prev : list Toasts.ToastMessage) :
  (forall t, t ∈ Toasts.removeToast tid prev
             <-> t ∈ prev /\ Toasts.toast_id t <> tid)
  /\ Toasts.removeToast tid prev `sublist_of` prev
  /\ Toasts.removeToast tid (Toasts.removeToast tid prev)
     = Toasts.removeToast tid prev
  /\ (tid ∉ map Toasts.toast_id prev ->
      forall type msg,
        Toasts.removeToast tid (Toasts.addToast tid type msg prev) = prev).
Proof.
  unfold Toasts.removeToast.
  assert (Hid : forall l, tid ∉ map Toasts.toast_id l ->
            List.filter (fun t => negb (bool_decide (Toasts.toast_id t = tid))) l = l).
  { induction l as [|t l IH]; [done|]. simpl. intros Hni.
    apply not_elem_of_cons in Hni as [Hne Hni].
    rewrite bool_decide_eq_false_2 by done. simpl. by rewrite IH. }
  split; [|split; [|split]].
  - intros t. rewrite !list_elem_of_In, filter_In, negb_true_iff,
      bool_decide_eq_false. done.
  - induction prev as [|t l IH]; [done|]. simpl.
    destruct (negb _); [by apply sublist_skip | by apply sublist_cons].
  - induction prev as [|t l IH]; [done|]. simpl.
    destruct (bool_decide (Toasts.toast_id t = tid)) eqn:Hb; simpl; [done|].
    by rewrite Hb, IH.
  - intros Hni type msg. unfold Toasts.addToast.
    rewrite List.filter_app, Hid by done. simpl.
    rewrite bool_decide_eq_true_2 by done. simpl. by rewrite app_nil_r.
Qed.

(** * The three streams do not interfere *)

Section StreamFacts.
Import Sync Streams.

Lemma run_app refs ds1 ds2 :
  run refs (ds1 ++ ds2)
  = ((run (run refs ds1).1 ds2).1, (run refs ds1).2 ++ (run (run refs ds1).1 ds2).2).
Proof.
  revert refs. induction ds1 as [|[ctx d] ds1 IH]; intros refs.
  - simpl. by destruct (run refs ds2).
  - simpl. destruct (deliver ctx d refs) as [refs1 out].
    rewrite IH. destruct (run refs1 ds1) as [refs2 log]. simpl.
    by destruct (run refs2 ds2).
Qed.

Lemma run_log_deliveries refs ds : map fst (run refs ds).2 = map snd ds.
Proof.
  revert refs. induction ds as [|[ctx d] ds IH]; intros refs; [done|].
  rewrite run_cons. simpl. by rewrite IH.
Qed.

(** A delivery leaves the parts of the other streams alone. *)
Lemma deliver_frame ctx d refs s :
  streamOf d <> s -> partOf s (deliver ctx d refs).1 = partOf s refs.
Proof.
  intros Hs.
  destruct d as [p|r|row|item|row|item]; simpl in *.
  - unfold ordersChannel. destruct (eventType p); try done;
      (destruct (truthy _); [|done]); (destruct (po_status _); [|done]);
      by destruct s.
  - by destruct s.
  - unfold commentsChannel.
    destruct (truthy (pc_order_id row)); [|done].
    destruct (truthy (pc_id row)); [|done].
    case_bool_decide; [done|]. case_bool_decide; [by destruct s|].
    destruct (match truthy (pc_author_id row) with Some _ => _ | None => _ end);
      [destruct (_ && _)|]; by destruct s.
  - unfold syncCommentRow. case_bool_decide; [done|].
    simpl. destruct (_ && _); by destruct s.
  - unfold filesChannel.
    destruct (truthy (pf_order_id row)); [|done].
    destruct (truthy (pf_id row)); [|done].
    case_bool_decide; [done|]. case_bool_decide; by destruct s.
  - unfold syncFileRow. case_bool_decide; [done|].
    simpl. destruct (_ && _); by destruct s.
Qed.

(** What a delivery does to its own stream's part, and what it notifies,
    depends on that part alone. *)
Lemma deliver_local ctx d refs refs' :
  partOf (streamOf d) refs = partOf (streamOf d) refs' ->
  (deliver ctx d refs).2 = (deliver ctx d refs').2
  /\ partOf (streamOf d) (deliver ctx d refs).1
     = partOf (streamOf d) (deliver ctx d refs').1.
Proof.
  destruct refs as [kc kf m lc lf], refs' as [kc' kf' m' lc' lf'].
  destruct d as [p|r|row|item|row|item]; simpl; intros Heq; simplify_eq.
  - unfold ordersChannel. simpl. destruct (eventType p); try done;
      (destruct (truthy _); [|done]); by destruct (po_status _).
  - done.
  - unfold commentsChannel. simpl.
    destruct (truthy (pc_order_id row)); [|done].
    destruct (truthy (pc_id row)); [|done].
    case_bool_decide; [done|]. case_bool_decide; [done|].
    by destruct (match truthy (pc_author_id row) with Some _ => _ | None => _ end);
      [destruct (_ && _)|].
  - unfold syncCommentRow. simpl. case_bool_decide; [done|].
    simpl. by destruct (_ && _).
  - unfold filesChannel. simpl.
    destruct (truthy (pf_order_id row)); [|done].
    destruct (truthy (pf_id row)); [|done].
    case_bool_decide; [done|]. by case_bool_decide.
  - unfold syncFileRow. simpl. case_bool_decide; [done|].
    simpl. by destruct (_ && _).
Qed.

Lemma run_frame refs ds s :
  Forall (fun cd => streamOf (snd cd) <> s) ds ->
  partOf s (run refs ds).1 = partOf s refs.
Proof.
  revert refs. induction ds as [|[ctx d] ds IH]; intros refs Hall; [done|].
  apply Forall_cons in Hall as [Hd Hall].
  rewrite run_cons. simpl. rewrite IH by done. by apply deliver_frame.
Qed.

Lemma run_local refs refs' ds s :
  Forall (fun cd => streamOf (snd cd) = s) ds ->
  partOf s refs = partOf s refs' ->
  (run refs ds).2 = (run refs' ds).2
  /\ partOf s (run refs ds).1 = partOf s (run refs' ds).1.
Proof.
  revert refs refs'. induction ds as [|[ctx d] ds IH]; intros refs refs' Hall Heq;
    [done|].
  apply Forall_cons in Hall as [Hd Hall]. simpl in Hd. subst s.
  rewrite !run_cons. simpl.
  destruct (deliver_local ctx d refs refs' Heq) as [Hout Hpart].
  destruct (IH _ _ Hall Hpart) as [Hlog Hp]. by rewrite Hout, Hlog, Hp.
Qed.

Lemma logOf_same refs ds s :
  Forall (fun cd => streamOf (snd cd) = s) ds ->
  logOf s (run refs ds).2 = (run refs ds).2.
Proof.
  revert refs. induction ds as [|[ctx d] ds IH]; intros refs Hall; [done|].
  apply Forall_cons in Hall as [Hd Hall]. rewrite run_cons.
  unfold logOf in *. simpl in *. rewrite (bool_decide_eq_true_2 _ Hd).
  by rewrite IH.
Qed.

Lemma logOf_other refs ds s :
  Forall (fun cd => streamOf (snd cd) <> s) ds ->
  logOf s (run refs ds).2 = [].
Proof.
  revert refs. induction ds as [|[ctx d] ds IH]; intros refs Hall; [done|].
  apply Forall_cons in Hall as [Hd Hall]. rewrite run_cons.
  unfold logOf in *. simpl in *. rewrite (bool_decide_eq_false_2 _ Hd).
  by rewrite IH.
Qed.

Lemma logOf_app s l1 l2 : logOf s (l1 ++ l2) = logOf s l1 ++ logOf s l2.
Proof. unfold logOf. apply List.filter_app. Qed.

Lemma pulled_stream ctx s os cs fs :
  Forall (fun cd => streamOf (snd cd) = s) (pulled ctx s os cs fs).
Proof.
  destruct s; simpl; apply Forall_forall; intros [c d] Hin;
    apply list_elem_of_In, in_map_iff in Hin as (x & [= <- <-] & _); done.
Qed.

Lemma pulled_other ctx s s' os cs fs :
  s <> s' -> Forall (fun cd => streamOf (snd cd) <> s') (pulled ctx s os cs fs).
Proof.
  intros Hne. eapply Forall_impl; [apply pulled_stream|].
  intros [c d]; simpl. by intros ->.
Qed.

Lemma syncEvents_unfold ctx os cs fs refs :
  syncEvents ctx false os cs fs refs
  = run refs (pulled ctx Orders os cs fs ++ pulled ctx Comments os cs fs
              ++ pulled ctx Files os cs fs).
Proof. reflexivity. Qed.

(** The log and the part of one stream after [syncEvents], in terms of a
    run of that stream's deliveries alone. *)
Lemma syncEvents_stream ctx os cs fs refs s :
  logOf s (syncEvents ctx false os cs fs refs).2
  = (run refs (pulled ctx s os cs fs)).2
  /\ partOf s (syncEvents ctx false os cs fs refs).1
     = partOf s (run refs (pulled ctx s os cs fs)).1.
Proof.
  rewrite syncEvents_unfold, !run_app. cbn [fst snd].
  rewrite !logOf_app.
  set (dO := pulled ctx Orders os cs fs).
  set (dC := pulled ctx Comments os cs fs).
  set (dF := pulled ctx Files os cs fs).
  set (r1 := (run refs dO).1). set (r2 := (run r1 dC).1).
  destruct s.
  - rewrite (logOf_same refs dO Orders) by apply pulled_stream.
    rewrite (logOf_other r1 dC Orders), (logOf_other r2 dF Orders)
      by (by apply pulled_other).
    rewrite !app_nil_r. split; [done|].
    rewrite (run_frame r2 dF Orders) by (by apply pulled_other).
    unfold r2. rewrite (run_frame r1 dC Orders) by (by apply pulled_other).
    done.
  - rewrite (logOf_other refs dO Comments), (logOf_other r2 dF Comments)
      by (by apply pulled_other).
    rewrite (logOf_same r1 dC Comments) by apply pulled_stream.
    rewrite app_nil_r. cbn [app].
    assert (Hp : partOf Comments r1 = partOf Comments refs)
      by (by apply run_frame, pulled_other).
    destruct (run_local r1 refs dC Comments (pulled_stream _ _ _ _ _) Hp)
      as [Hlog Hpart].
    split; [done|].
    rewrite (run_frame r2 dF Comments) by (by apply pulled_other). done.
  - rewrite (logOf_other refs dO Files), (logOf_other r1 dC Files)
      by (by apply pulled_other).
    rewrite (logOf_same r2 dF Files) by apply pulled_stream. cbn [app].
    assert (Hp : partOf Files r2 = partOf Files refs).
    { unfold r2. rewrite (run_frame r1 dC Files) by (by apply pulled_other).
      by apply run_frame, pulled_other. }
    destruct (run_local r2 refs dF Files (pulled_stream _ _ _ _ _) Hp)
      as [Hlog Hpart].
    done.
Qed.

(** X7: What [syncEvents] notifies for one stream, and what it leaves in that
    stream's part of the refs, is the same whether the two other queries
    succeeded, failed or returned nothing: a failed stream never holds back
    or alters the other two. *)
Theorem streams_do_not_interfere
    (ctx : SyncCtx) (os os' : option (list OrderRow))
    (cs cs' : option (list CommentRow)) (fs fs' : option (list FileRow))
    (refs : SyncRefs) :
  (logOf Orders (syncEvents ctx false os cs fs refs).2
   = logOf Orders (syncEvents ctx false os cs' fs' refs).2
   /\ partOf Orders (syncEvents ctx false os cs fs refs).1
      = partOf Orders (syncEvents ctx false os cs' fs' refs).1)
  /\ (logOf Comments (syncEvents ctx false os cs fs refs).2
      = logOf Comments (syncEvents ctx false os' cs fs' refs).2
      /\ partOf Comments (syncEvents ctx false os cs fs refs).1
         = partOf Comments (syncEvents ctx false os' cs fs' refs).1)
  /\ (logOf Files (syncEvents ctx false os cs fs refs).2
      = logOf Files (syncEvents ctx false os' cs' fs refs).2
      /\ partOf Files (syncEvents ctx false os cs fs refs).1
         = partOf Files (syncEvents ctx false os' cs' fs refs).1).
Proof.
  split; [|split].
  - destruct (syncEvents_stream ctx os cs fs refs Orders) as [-> ->].
    by destruct (syncEvents_stream ctx os cs' fs' refs Orders) as [-> ->].
  - destruct (syncEvents_stream ctx os cs fs refs Comments) as [-> ->].
    by destruct (syncEvents_stream ctx os' cs fs' refs Comments) as [-> ->].
  - destruct (syncEvents_stream ctx os cs fs refs Files) as [-> ->].
    by destruct (syncEvents_stream ctx os' cs' fs refs Files) as [-> ->].
Qed.

End StreamFacts.

(** * The orders pull as a whole *)

Section OrdersPull.
Import Sync Streams.

Lemma run_pull_orders ctx rows refs :
  NoDup (map or_id rows) ->
  (run refs (map (fun row => (ctx, PullOrder row)) rows)).2
  = map (pulledOrderEntry ctx (orderStatusMap refs)) rows
  /\ orderStatusMap (run refs (map (fun row => (ctx, PullOrder row)) rows)).1
     = fold_left (fun m row => <[or_id row := or_status row]> m) rows
                 (orderStatusMap refs).
Proof.
  revert refs. induction rows as [|row rows IH]; intros refs Hnd; [done|].
  apply NoDup_cons in Hnd as [Hrow Hnd].
  cbn [map]. rewrite run_cons. cbn [fst snd deliver].
  unfold syncOrderRow. cbn [fst snd].
  destruct (IH (setStatus (or_id row) (or_status row) refs) Hnd) as (Hlog & Hmap).
  rewrite Hlog, Hmap. split; [|done].
  cbn [map]. f_equal.
  apply map_ext_in. intros r Hr. unfold pulledOrderEntry. simpl.
  rewrite lookup_insert_ne; [done|].
  intros Heq. apply Hrow. rewrite Heq. apply list_elem_of_In, in_map, Hr.
Qed.

Lemma pulled_entries_silent ctx m rows :
  (forall row, row ∈ rows ->
     m !! or_id row = None \/ m !! or_id row = Some (or_status row)) ->
  map (pulledOrderEntry ctx m) rows = map (fun row => (PullOrder row, [])) rows.
Proof.
  intros Hag. apply map_ext_in. intros row Hin%list_elem_of_In.
  unfold pulledOrderEntry. f_equal.
  destruct (Hag row Hin) as [-> | ->]; [done | apply diffStatus_same].
Qed.

Lemma setStatus_same oid s refs :
  orderStatusMap refs !! oid = Some s -> setStatus oid s refs = refs.
Proof.
  intros Hl. destruct refs as [kc kf m lc lf]. unfold setStatus. simpl in *.
  by rewrite insert_id.
Qed.

Lemma run_pull_agreeing ctx rows refs :
  (forall row, row ∈ rows ->
     orderStatusMap refs !! or_id row = Some (or_status row)) ->
  run refs (map (fun row => (ctx, PullOrder row)) rows)
  = (refs, map (fun row => (PullOrder row, [])) rows).
Proof.
  induction rows as [|row rows IH]; intros Hag; [done|].
  cbn [map]. rewrite run_cons. cbn [fst snd deliver]. unfold syncOrderRow.
  cbn [fst snd].
  assert (Hrow : orderStatusMap refs !! or_id row = Some (or_status row))
    by (apply Hag, elem_of_cons; by left).
  rewrite (setStatus_same _ _ _ Hrow), Hrow, diffStatus_same.
  rewrite IH; [done|]. intros r Hr. apply Hag, elem_of_cons. by right.
Qed.

Lemma syncEvents_orders ctx rows cs fs refs :
  logOf Orders (syncEvents ctx false (Some rows) cs fs refs).2
  = (run refs (map (fun row => (ctx, PullOrder row)) rows)).2
  /\ orderStatusMap (syncEvents ctx false (Some rows) cs fs refs).1
     = orderStatusMap (run refs (map (fun row => (ctx, PullOrder row)) rows)).1.
Proof.
  destruct (syncEvents_stream ctx (Some rows) cs fs refs Orders) as [Hlog Hpart].
  split; [exact Hlog|]. unfold partOf in Hpart. by injection Hpart.
Qed.

Lemma seed_lookup data refs :
  orderStatusMap (seedStatusMap data refs)
  = fold_left (fun m row => <[fst row := snd row]> m) data ∅.
Proof. reflexivity. Qed.

(** X8: With distinct order ids in the result, the orders pull compares every
    row with the status the map held before the pull, whatever the other
    two queries returned; afterwards the map holds the status of each
    pulled row and the old entry of every other order. *)
Theorem orders_pull_diffs_against_previous_map
    (ctx : SyncCtx) (rows : list OrderRow)
    (cs : option (list CommentRow)) (fs : option (list FileRow))
    (refs : SyncRefs) :
  NoDup (map or_id rows) ->
  let r := syncEvents ctx false (Some rows) cs fs refs in
  logOf Orders r.2 = map (pulledOrderEntry ctx (orderStatusMap refs)) rows
  /\ (forall row, row ∈ rows ->
        orderStatusMap r.1 !! or_id row = Some (or_status row))
  /\ (forall i, i ∉ map or_id rows ->
        orderStatusMap r.1 !! i = orderStatusMap refs !! i).
Proof.
  intros Hnd r. subst r.
  destruct (syncEvents_orders ctx rows cs fs refs) as [Hlog Hpart].
  destruct (run_pull_orders ctx rows refs Hnd) as (Hl & Hm).
  rewrite Hlog, Hpart, Hl, Hm. repeat split.
  - intros row Hin. by apply (build_distinct or_id or_status).
  - intros i Hni. by apply (build_absent or_id or_status).
Qed.

(** X9: The initial load raises no storm: the first orders pull of a session
    notifies of no order, both when it meets the empty map left by
    [startSession] and when it meets the map [seedStatusMap] built from the
    same snapshot. *)
Theorem initial_pull_notifies_no_order
    (ctx : SyncCtx) (nowIso : string) (rows : list OrderRow)
    (cs : option (list CommentRow)) (fs : option (list FileRow)) :
  NoDup (map or_id rows) ->
  logOf Orders (syncEvents ctx false (Some rows) cs fs (startSession nowIso)).2
  = map (fun row => (PullOrder row, [])) rows
  /\ logOf Orders
       (syncEvents ctx false (Some rows) cs fs
          (seedStatusMap (snapshotOf rows) (startSession nowIso))).2
     = map (fun row => (PullOrder row, [])) rows.
Proof.
  intros Hnd. split.
  - destruct (syncEvents_orders ctx rows cs fs (startSession nowIso)) as [-> _].
    destruct (run_pull_orders ctx rows (startSession nowIso) Hnd) as (Hl & _).
    rewrite Hl. by apply pulled_entries_silent; left.
  - destruct (syncEvents_orders ctx rows cs fs
                (seedStatusMap (snapshotOf rows) (startSession nowIso)))
      as [-> _].
    rewrite run_pull_agreeing; [done|].
    intros row Hin. rewrite seed_lookup.
    assert (Hk : map fst (snapshotOf rows) = map or_id rows).
    { unfold snapshotOf. rewrite map_map. done. }
    pose proof (build_distinct (X := string * Status) fst snd (snapshotOf rows) ∅
                  (or_id row, or_status row)) as Hb.
    simpl in Hb. apply Hb.
    + by rewrite Hk.
    + unfold snapshotOf. apply list_elem_of_In, in_map_iff. exists row.
      split; [done | by apply list_elem_of_In].
Qed.

(** X10: A second pull of the same order rows that meets the refs exactly as
    the first pull left them (the status map was not rebuilt in between by
    the effect on [orders] or by [seedStatusMap]) notifies of nothing and
    leaves the status map as it is. *)
Theorem repeated_orders_pull_is_silent
    (ctx ctx' : SyncCtx) (rows : list OrderRow)
    (cs cs' : option (list CommentRow)) (fs fs' : option (list FileRow))
    (refs : SyncRefs) :
  NoDup (map or_id rows) ->
  let r1 := syncEvents ctx false (Some rows) cs fs refs in
  let r2 := syncEvents ctx' false (Some rows) cs' fs' r1.1 in
  logOf Orders r2.2 = map (fun row => (PullOrder row, [])) rows
  /\ orderStatusMap r2.1 = orderStatusMap r1.1.
Proof.
  intros Hnd r1 r2. subst r2.
  assert (Hag : forall row, row ∈ rows ->
            orderStatusMap r1.1 !! or_id row = Some (or_status row)).
  { intros row Hin. subst r1.
    destruct (syncEvents_orders ctx rows cs fs refs) as [_ Hpart].
    destruct (run_pull_orders ctx rows refs Hnd) as (_ & Hm).
    rewrite Hpart, Hm.
    by apply (build_distinct or_id or_status). }
  destruct (syncEvents_orders ctx' rows cs' fs' r1.1) as [Hlog Hpart].
  rewrite Hlog, Hpart, (run_pull_agreeing ctx' rows r1.1 Hag). done.
Qed.

(** X11: [seedStatusMap] and the effect on [orders] both replace the status map
    by one that holds, for distinct ids, the status of every row given and
    nothing for any other order; the known-id sets and the cursors stay. *)
Theorem status_map_rebuilt_from_rows
    (data : list (string * Status)) (orders : list Order) (refs : SyncRefs) :
  (NoDup (map fst data) ->
   forall i s, (i, s) ∈ data ->
     orderStatusMap (seedStatusMap data refs) !! i = Some s)
  /\ (forall i, i ∉ map fst data ->
        orderStatusMap (seedStatusMap data refs) !! i = None)
  /\ (NoDup (map order_id_ orders) ->
      forall o, o ∈ orders ->
        orderStatusMap (onOrdersChanged orders refs) !! order_id_ o
        = Some (status o))
  /\ (forall i, i ∉ map order_id_ orders ->
        orderStatusMap (onOrdersChanged orders refs) !! i = None)
  /\ partOf Comments (seedStatusMap data refs) = partOf Comments refs
  /\ partOf Files (seedStatusMap data refs) = partOf Files refs
  /\ partOf Comments (onOrdersChanged orders refs) = partOf Comments refs
  /\ partOf Files (onOrdersChanged orders refs) = partOf Files refs.
Proof.
  split; [|split; [|split; [|split]]]; [| | | |done].
  - intros Hnd i s Hin.
    apply (build_distinct (X := string * Status) fst snd data ∅ (i, s) Hnd Hin).
  - intros i Hni. simpl.
    by rewrite (build_absent (X := string * Status) fst snd data ∅ i Hni).
  - intros Hnd o Hin. by apply (build_distinct order_id_ status).
  - intros i Hni. simpl. by rewrite (build_absent order_id_ status orders ∅ i Hni).
Qed.

End OrdersPull.

(** * Cursors and known ids

    The pull compares timestamps as strings, character code by character
    code; [String.ltb] and [String.leb] are that order. *)

Section CursorFacts.
Import Sync Streams.

Lemma leb_iff a b :
  String.leb a b = true <-> a = b \/ OrderedTypeEx.String_as_OT.lt a b.
Proof.
  unfold String.leb.
  destruct (String.compare a b) eqn:Hc; split; try done.
  - intros _. left. by apply String.compare_eq_iff.
  - intros _. right. by apply OrderedTypeEx.String_as_OT.cmp_lt.
  - intros [->|Hlt].
    + assert (String.compare b b = Eq) as He
        by (by apply OrderedTypeEx.String_as_OT.cmp_eq).
      congruence.
    + apply OrderedTypeEx.String_as_OT.cmp_lt in Hlt.
      unfold OrderedTypeEx.String_as_OT.cmp in Hlt. congruence.
Qed.

Lemma leb_refl a : String.leb a a = true.
Proof. apply leb_iff. by left. Qed.

Lemma leb_trans a b c :
  String.leb a b = true -> String.leb b c = true -> String.leb a c = true.
Proof.
  rewrite !leb_iff. intros [->|H1] [->|H2]; auto.
  right. by eapply OrderedTypeEx.String_as_OT.lt_trans.
Qed.

Lemma ltb_leb a b : String.ltb a b = true -> String.leb a b = true.
Proof.
  unfold String.ltb, String.leb. by destruct (String.compare a b).
Qed.

Lemma not_ltb_leb a b : String.ltb a b = false -> String.leb b a = true.
Proof.
  unfold String.ltb, String.leb. rewrite (String.compare_antisym b a).
  by destruct (String.compare a b).
Qed.

Lemma leb_empty a : String.leb "" a = true.
Proof. by destruct a. Qed.

Lemma deliver_cursors ctx d refs :
  String.leb (lastCommentSeenAt refs) (lastCommentSeenAt (deliver ctx d refs).1) = true
  /\ String.leb (lastFileSeenAt refs) (lastFileSeenAt (deliver ctx d refs).1) = true
  /\ (isPush d = true ->
      lastCommentSeenAt (deliver ctx d refs).1 = lastCommentSeenAt refs
      /\ lastFileSeenAt (deliver ctx d refs).1 = lastFileSeenAt refs).
Proof.
  destruct d as [p|r|row|item|row|item]; simpl.
  - unfold ordersChannel. destruct (eventType p);
      try (destruct (truthy _); [destruct (po_status _)|]); simpl;
      by rewrite !leb_refl.
  - by rewrite !leb_refl.
  - unfold commentsChannel.
    destruct (truthy (pc_order_id row)); [|by rewrite !leb_refl].
    destruct (truthy (pc_id row)); [|by rewrite !leb_refl].
    case_bool_decide; [by rewrite !leb_refl|].
    case_bool_decide; [by rewrite !leb_refl|].
    destruct (match truthy (pc_author_id row) with Some _ => _ | None => _ end);
      [destruct (_ && _)|]; simpl; by rewrite !leb_refl.
  - unfold syncCommentRow. case_bool_decide; [by rewrite !leb_refl|]. simpl.
    destruct (negb _); simpl; [|by rewrite !leb_refl].
    destruct (String.ltb _ _) eqn:Hlt; simpl; [|by rewrite !leb_refl].
    by rewrite (ltb_leb _ _ Hlt), leb_refl.
  - unfold filesChannel.
    destruct (truthy (pf_order_id row)); [|by rewrite !leb_refl].
    destruct (truthy (pf_id row)); [|by rewrite !leb_refl].
    case_bool_decide; [by rewrite !leb_refl|].
    case_bool_decide; simpl; by rewrite !leb_refl.
  - unfold syncFileRow. case_bool_decide; [by rewrite !leb_refl|]. simpl.
    destruct (negb _); simpl; [|by rewrite !leb_refl].
    destruct (String.ltb _ _) eqn:Hlt; simpl; [|by rewrite !leb_refl].
    by rewrite (ltb_leb _ _ Hlt), leb_refl.
Qed.

(** X12: Along any trace both cursors only move forward in the string order the
    pull compares timestamps with, and a trace of realtime deliveries alone
    leaves both where they were. *)
Theorem cursors_never_go_back (refs : SyncRefs) (ds : list (SyncCtx * Delivery)) :
  String.leb (lastCommentSeenAt refs) (lastCommentSeenAt (run refs ds).1) = true
  /\ String.leb (lastFileSeenAt refs) (lastFileSeenAt (run refs ds).1) = true
  /\ (Forall (fun cd => isPush (snd cd) = true) ds ->
      lastCommentSeenAt (run refs ds).1 = lastCommentSeenAt refs
      /\ lastFileSeenAt (run refs ds).1 = lastFileSeenAt refs).
Proof.
  revert refs. induction ds as [|[ctx d] ds IH]; intros refs.
  - simpl. by rewrite !leb_refl.
  - rewrite run_cons. cbn [fst].
    destruct (deliver_cursors ctx d refs) as (Hc & Hf & Hp).
    destruct (IH (deliver ctx d refs).1) as (Hc' & Hf' & Hp').
    split; [by eapply leb_trans|]. split; [by eapply leb_trans|].
    intros Hall. apply Forall_cons in Hall as [Hd Hall].
    destruct (Hp Hd) as [<- <-]. by apply Hp'.
Qed.

End CursorFacts.

Section PullFacts.
Import Sync Streams.

Lemma run_cursor_mono refs ds :
  String.leb (lastCommentSeenAt refs) (lastCommentSeenAt (run refs ds).1) = true
  /\ String.leb (lastFileSeenAt refs) (lastFileSeenAt (run refs ds).1) = true.
Proof.
  revert refs. induction ds as [|[ctx d] ds IH]; intros refs.
  - simpl. by rewrite !leb_refl.
  - rewrite run_cons. cbn [fst].
    destruct (deliver_cursors ctx d refs) as (Hc & Hf & _).
    destruct (IH (deliver ctx d refs).1) as (Hc' & Hf').
    split; by eapply leb_trans.
Qed.

Lemma syncCommentRow_known ctx item refs :
  knownCommentIds (syncCommentRow ctx item refs).1
  = {[cr_id item]} ∪ knownCommentIds refs.
Proof.
  unfold syncCommentRow. case_bool_decide as Hk.
  - apply set_eq. intros y. rewrite elem_of_union, elem_of_singleton.
    split; [tauto | by intros [->|?]].
  - simpl. by destruct (_ && _).
Qed.

Lemma syncFileRow_known ctx item refs :
  knownFileIds (syncFileRow ctx item refs).1 = {[fr_id item]} ∪ knownFileIds refs.
Proof.
  unfold syncFileRow. case_bool_decide as Hk.
  - apply set_eq. intros y. rewrite elem_of_union, elem_of_singleton.
    split; [tauto | by intros [->|?]].
  - simpl. by destruct (_ && _).
Qed.

Lemma syncCommentRow_covers ctx item refs :
  cr_id item ∉ knownCommentIds refs ->
  String.leb (cr_created_at item)
             (lastCommentSeenAt (syncCommentRow ctx item refs).1) = true.
Proof.
  intros Hnew. unfold syncCommentRow. rewrite (bool_decide_eq_false_2 _ Hnew).
  simpl. case_bool_decide as He; simpl.
  - rewrite He. apply leb_empty.
  - destruct (String.ltb _ _) eqn:Hlt; simpl; [apply leb_refl|].
    by apply not_ltb_leb.
Qed.

Lemma syncFileRow_covers ctx item refs :
  fr_id item ∉ knownFileIds refs ->
  String.leb (fr_created_at item)
             (lastFileSeenAt (syncFileRow ctx item refs).1) = true.
Proof.
  intros Hnew. unfold syncFileRow. rewrite (bool_decide_eq_false_2 _ Hnew).
  simpl. case_bool_decide as He; simpl.
  - rewrite He. apply leb_empty.
  - destruct (String.ltb _ _) eqn:Hlt; simpl; [apply leb_refl|].
    by apply not_ltb_leb.
Qed.

Lemma run_pull_comments ctx items refs :
  knownCommentIds (run refs (map (fun item => (ctx, PullComment item)) items)).1
  = list_to_set (map cr_id items) ∪ knownCommentIds refs
  /\ (NoDup (map cr_id items) ->
      (forall item, item ∈ items -> cr_id item ∉ knownCommentIds refs) ->
      forall item, item ∈ items ->
        String.leb (cr_created_at item)
          (lastCommentSeenAt
             (run refs (map (fun item => (ctx, PullComment item)) items)).1) = true).
Proof.
  revert refs. induction items as [|x items IH]; intros refs.
  - split; [|by intros _ _ item ?%elem_of_nil].
    cbn [map run fst list_to_set]. by rewrite (left_id_L ∅ (∪)).
  - cbn [map]. rewrite run_cons. cbn [fst deliver].
    destruct (IH (syncCommentRow ctx x refs).1) as [Hk Hc]. split.
    + rewrite Hk, syncCommentRow_known. cbn [map]. rewrite list_to_set_cons.
      apply set_eq. intros y. rewrite !elem_of_union. tauto.
    + intros Hnd Hnew item Hin. apply NoDup_cons in Hnd as [Hx Hnd].
      apply elem_of_cons in Hin as [->|Hin].
      * eapply leb_trans; [apply syncCommentRow_covers, Hnew, elem_of_cons; by left|].
        apply run_cursor_mono.
      * apply Hc; [done| |done]. intros y Hy. rewrite syncCommentRow_known.
        intros [Heq%elem_of_singleton|Hold]%elem_of_union.
        -- apply Hx. rewrite <- Heq. apply list_elem_of_In, in_map.
           by apply list_elem_of_In.
        -- eapply Hnew; [|done]. apply elem_of_cons. by right.
Qed.

Lemma run_pull_files ctx items refs :
  knownFileIds (run refs (map (fun item => (ctx, PullFile item)) items)).1
  = list_to_set (map fr_id items) ∪ knownFileIds refs
  /\ (NoDup (map fr_id items) ->
      (forall item, item ∈ items -> fr_id item ∉ knownFileIds refs) ->
      forall item, item ∈ items ->
        String.leb (fr_created_at item)
          (lastFileSeenAt
             (run refs (map (fun item => (ctx, PullFile item)) items)).1) = true).
Proof.
  revert refs. induction items as [|x items IH]; intros refs.
  - split; [|by intros _ _ item ?%elem_of_nil].
    cbn [map run fst list_to_set]. by rewrite (left_id_L ∅ (∪)).
  - cbn [map]. rewrite run_cons. cbn [fst deliver].
    destruct (IH (syncFileRow ctx x refs).1) as [Hk Hc]. split.
    + rewrite Hk, syncFileRow_known. cbn [map]. rewrite list_to_set_cons.
      apply set_eq. intros y. rewrite !elem_of_union. tauto.
    + intros Hnd Hnew item Hin. apply NoDup_cons in Hnd as [Hx Hnd].
      apply elem_of_cons in Hin as [->|Hin].
      * eapply leb_trans; [apply syncFileRow_covers, Hnew, elem_of_cons; by left|].
        apply run_cursor_mono.
      * apply Hc; [done| |done]. intros y Hy. rewrite syncFileRow_known.
        intros [Heq%elem_of_singleton|Hold]%elem_of_union.
        -- apply Hx. rewrite <- Heq. apply list_elem_of_In, in_map.
           by apply list_elem_of_In.
        -- eapply Hnew; [|done]. apply elem_of_cons. by right.
Qed.

Lemma syncEvents_comments ctx os items fs refs :
  knownCommentIds (syncEvents ctx false os (Some items) fs refs).1
  = knownCommentIds (run refs (map (fun item => (ctx, PullComment item)) items)).1
  /\ lastCommentSeenAt (syncEvents ctx false os (Some items) fs refs).1
     = lastCommentSeenAt (run refs (map (fun item => (ctx, PullComment item)) items)).1.
Proof.
  destruct (syncEvents_stream ctx os (Some items) fs refs Comments) as [_ Hpart].
  unfold partOf in Hpart. by injection Hpart.
Qed.

Lemma syncEvents_files ctx os cs items refs :
  knownFileIds (syncEvents ctx false os cs (Some items) refs).1
  = knownFileIds (run refs (map (fun item => (ctx, PullFile item)) items)).1
  /\ lastFileSeenAt (syncEvents ctx false os cs (Some items) refs).1
     = lastFileSeenAt (run refs (map (fun item => (ctx, PullFile item)) items)).1.
Proof.
  destruct (syncEvents_stream ctx os cs (Some items) refs Files) as [_ Hpart].
  unfold partOf in Hpart. by injection Hpart.
Qed.

(** X13: After [syncEvents] the known comment ids are the former ones together
    with the id of every pulled comment, whether it notified or not, and
    likewise for files. *)
Theorem pulled_ids_become_known
    (ctx : SyncCtx) (os : option (list OrderRow))
    (comments : list CommentRow) (files : list FileRow) (refs : SyncRefs) :
  let r := syncEvents ctx false os (Some comments) (Some files) refs in
  knownCommentIds r.1 = list_to_set (map cr_id comments) ∪ knownCommentIds refs
  /\ knownFileIds r.1 = list_to_set (map fr_id files) ∪ knownFileIds refs.
Proof.
  intros r. subst r. split.
  - destruct (syncEvents_comments ctx os comments (Some files) refs) as [-> _].
    apply run_pull_comments.
  - destruct (syncEvents_files ctx os (Some comments) files refs) as [-> _].
    apply run_pull_files.
Qed.

(** X14: When the pulled comments have distinct ids none of which was known,
    the comment cursor ends at a string that is not before the [created_at]
    string of any of them, in the string order by which the code itself
    advances the cursor; likewise for files. *)
Theorem cursor_covers_new_rows
    (ctx : SyncCtx) (os : option (list OrderRow))
    (comments : list CommentRow) (files : list FileRow) (refs : SyncRefs) :
  let r := syncEvents ctx false os (Some comments) (Some files) refs in
  (NoDup (map cr_id comments) ->
   (forall item, item ∈ comments -> cr_id item ∉ knownCommentIds refs) ->
   forall item, item ∈ comments ->
     String.ltb (lastCommentSeenAt r.1) (cr_created_at item) = false)
  /\ (NoDup (map fr_id files) ->
      (forall item, item ∈ files -> fr_id item ∉ knownFileIds refs) ->
      forall item, item ∈ files ->
        String.ltb (lastFileSeenAt r.1) (fr_created_at item) = false).
Proof.
  assert (Hnot : forall a b, String.leb a b = true -> String.ltb b a = false).
  { intros a b. unfold String.leb, String.ltb.
    rewrite (String.compare_antisym a b). by destruct (String.compare b a). }
  intros r. subst r. split; intros Hnd Hnew item Hin; apply Hnot.
  - destruct (syncEvents_comments ctx os comments (Some files) refs) as [_ ->].
    by apply run_pull_comments.
  - destruct (syncEvents_files ctx os (Some comments) files refs) as [_ ->].
    by apply run_pull_files.
Qed.

Lemma deliver_new_id
    (ctx : SyncCtx) (d : Delivery) (refs : SyncRefs) (i : string) :
  wellFormed d = true ->
  actorOf d <> Some (profile_id (profile ctx)) ->
  (commentIdOf d = Some i /\ i ∉ knownCommentIds refs)
  \/ (fileIdOf d = Some i /\ i ∉ knownFileIds refs) ->
  length (deliver ctx d refs).2 = 1.
Proof.
  intros Hwf Hact Hid.
  destruct d as [p|r|row|item|row|item]; simpl in *;
    try (by destruct Hid as [[? _]|[? _]]).
  - destruct Hid as [[Hid Hnew]|[? _]]; [|done].
    apply andb_true_iff in Hwf as [H1 H2].
    apply bool_decide_eq_true in H1 as [oid H1], H2 as [cid H2].
    unfold commentsChannel. rewrite H1, H2.
    apply truthy_Some in H2 as [H2 _]. rewrite Hid in H2. injection H2 as <-.
    rewrite (bool_decide_eq_false_2 _ Hnew), (bool_decide_eq_false_2 _ Hact).
    by destruct (match truthy (pc_author_id row) with Some _ => _ | None => _ end);
      [destruct (_ && _)|].
  - destruct Hid as [[[= <-] Hnew]|[? _]]; [|done].
    unfold syncCommentRow. rewrite (bool_decide_eq_false_2 _ Hnew). simpl.
    by rewrite (bool_decide_eq_true_2 _ Hact).
  - destruct Hid as [[? _]|[Hid Hnew]]; [done|].
    apply andb_true_iff in Hwf as [H1 H2].
    apply bool_decide_eq_true in H1 as [oid H1], H2 as [fid H2].
    unfold filesChannel. rewrite H1, H2.
    apply truthy_Some in H2 as [H2 _]. rewrite Hid in H2. injection H2 as <-.
    by rewrite (bool_decide_eq_false_2 _ Hnew), (bool_decide_eq_false_2 _ Hact).
  - destruct Hid as [[? _]|[[= <-] Hnew]]; [done|].
    unfold syncFileRow. rewrite (bool_decide_eq_false_2 _ Hnew). simpl.
    by rewrite (bool_decide_eq_true_2 _ Hact).
Qed.

(** X15: A comment or file delivery that passes the payload guard, names an
    actor other than the viewer (or none) and carries an id not yet known
    makes exactly one call of [pushNotification], on either path, and
    whatever is delivered afterwards, by whichever source, that id is never
    notified again: over the whole trace it is notified exactly once. *)
Theorem new_id_notified_exactly_once
    (ctx : SyncCtx) (d : Delivery) (refs : SyncRefs) (i : string)
    (ds : list (SyncCtx * Delivery)) :
  wellFormed d = true ->
  actorOf d <> Some (profile_id (profile ctx)) ->
  ((commentIdOf d = Some i /\ i ∉ knownCommentIds refs)
   \/ (fileIdOf d = Some i /\ i ∉ knownFileIds refs) ->
   length (deliver ctx d refs).2 = 1)
  /\ (commentIdOf d = Some i -> i ∉ knownCommentIds refs ->
      notifiedFor commentIdOf i (run refs ((ctx, d) :: ds)).2 = 1)
  /\ (fileIdOf d = Some i -> i ∉ knownFileIds refs ->
      notifiedFor fileIdOf i (run refs ((ctx, d) :: ds)).2 = 1).
Proof.
  intros Hwf Hact. split; [|split].
  - intros Hc. by apply (deliver_new_id ctx d refs i).
  - intros Hid Hnew. rewrite run_cons. cbn [snd]. rewrite notifiedFor_cons.
    rewrite (run_silent commentIdOf knownCommentIds).
    + assert (Hone : length (deliver ctx d refs).2 = 1)
        by (apply (deliver_new_id ctx d refs i); auto).
      rewrite (bool_decide_eq_true_2 _ Hid).
      rewrite bool_decide_eq_false_2; [done|].
      intros Hnil. by rewrite Hnil in Hone.
    + apply comment_known_mono.
    + intros c d' r j Hd Hj. by rewrite (comment_known_silent c d' r j).
    + by apply comment_wellformed_recorded.
  - intros Hid Hnew. rewrite run_cons. cbn [snd]. rewrite notifiedFor_cons.
    rewrite (run_silent fileIdOf knownFileIds).
    + assert (Hone : length (deliver ctx d refs).2 = 1)
        by (apply (deliver_new_id ctx d refs i); auto).
      rewrite (bool_decide_eq_true_2 _ Hid).
      rewrite bool_decide_eq_false_2; [done|].
      intros Hnil. by rewrite Hnil in Hone.
    + apply file_known_mono.
    + intros c d' r j Hd Hj. by rewrite (file_known_silent c d' r j).
    + by apply file_wellformed_recorded.
Qed.

End PullFacts.

(** * More on opening notifications *)

Section OpenFacts.
Import Nav Render.

Variable fetchOrder : string -> option Order.

Lemma find_present oid l :
  hasOrder oid l = true ->
  exists o, List.find (fun o => bool_decide (order_id_ o = oid)) l = Some o
            /\ order_id_ o = oid /\ o ∈ l.
Proof.
  unfold hasOrder. induction l as [|x l IH]; simpl; [done|].
  destruct (bool_decide (order_id_ x = oid)) eqn:Hx; simpl.
  - intros _. exists x. apply bool_decide_eq_true in Hx.
    repeat split; [done | by apply elem_of_cons; left].
  - intros (o & Hf & Ho & Hin)%IH. exists o.
    repeat split; [done.. | by apply elem_of_cons; right].
Qed.

Lemma hasOrder_merge data prev : hasOrder (order_id_ data) (mergeFetched data prev) = true.
Proof.
  unfold mergeFetched. destruct (hasOrder (order_id_ data) prev) eqn:Hh; [done|].
  unfold hasOrder. simpl. by rewrite bool_decide_eq_true_2.
Qed.

Lemma markRead_absent i (l : list AppNotification) :
  i ∉ map id l -> markRead i l = l.
Proof.
  unfold markRead. induction l as [|x l IH]; simpl; [done|].
  intros [Hne Hni]%not_elem_of_cons.
  rewrite bool_decide_eq_false_2 by done. by rewrite IH.
Qed.

Lemma unread_cons n l :
  Inbox.unreadNotificationCount (n :: l)
  = (if read n then 0 else 1) + Inbox.unreadNotificationCount l.
Proof. unfold Inbox.unreadNotificationCount. simpl. by destruct (read n). Qed.

(** X16: When the order of the notification is loaded, or the fetch returns the
    row asked for, opening the notification ends on the dashboard page with
    that order selected and resolved, the sidebar and the notification panel
    closed. *)
Theorem openNotification_reaches_order
    (item : AppNotification) (st : AppState) (oid : string) :
  truthy (order_id item) = Some oid ->
  (Nav.ordersRef st = orders st /\ hasOrder oid (orders st) = true)
  \/ (hasOrder oid (Nav.ordersRef st) = false
      /\ exists data, fetchOrder oid = Some data /\ order_id_ data = oid) ->
  let st' := (openNotification fetchOrder item st).1 in
  (exists o, selectedOrder st' = Some o /\ order_id_ o = oid /\ o ∈ orders st')
  /\ selectedPage st' = dashboard
  /\ sidebarOpen st' = false
  /\ isNotificationOpen st' = false.
Proof.
  intros Ho Hcase st'. subst st'. unfold openNotification. rewrite Ho. simpl.
  destruct Hcase as [[Href Hh] | [Hh (data & Hf & Hd)]].
  - rewrite Href, Hh. simpl. repeat split.
    unfold selectedOrder. simpl. by apply find_present.
  - rewrite Hh, Hf. simpl. repeat split.
    unfold selectedOrder. simpl. apply find_present.
    rewrite <- Hd. apply hasOrder_merge.
Qed.

(** X17: In an inbox with distinct ids, opening an unread entry lowers the
    unread count by exactly one, and opening a read entry leaves it. *)
Theorem openNotification_unread_count (item : AppNotification) (st : AppState) :
  NoDup (map id (notifications st)) ->
  item ∈ notifications st ->
  Inbox.unreadNotificationCount (notifications (openNotification fetchOrder item st).1)
  + (if read item then 0 else 1)
  = Inbox.unreadNotificationCount (notifications st).
Proof.
  rewrite open_notifications.
  generalize (notifications st) as l. clear st.
  induction l as [|x l IH]; intros Hnd Hin; [by apply elem_of_nil in Hin|].
  simpl in Hnd. apply NoDup_cons in Hnd as [Hx Hnd].
  unfold markRead in *. cbn [map]. rewrite !unread_cons.
  apply elem_of_cons in Hin as [->|Hin].
  - rewrite bool_decide_eq_true_2 by done.
    fold (markRead (id x) l). rewrite markRead_absent by done.
    simpl. lia.
  - rewrite bool_decide_eq_false_2.
    + specialize (IH Hnd Hin). lia.
    + intros Heq. apply Hx. rewrite Heq. apply list_elem_of_In, in_map.
      by apply list_elem_of_In.
Qed.

Lemma markRead_idem i (l : list AppNotification) :
  markRead i (markRead i l) = markRead i l.
Proof.
  unfold markRead. rewrite map_map. apply map_ext. intros n.
  destruct (bool_decide (id n = i)) eqn:Hn; simpl; by rewrite Hn.
Qed.

(** X18: Once an open has fetched the row asked for and the effect has copied
    [orders] into [ordersRef], opening the same notification again fetches
    nothing and leaves the order list and the inbox as they are. *)
Theorem reopening_fetches_nothing
    (item : AppNotification) (st : AppState) (oid : string) (data : Order) :
  truthy (order_id item) = Some oid ->
  hasOrder oid (Nav.ordersRef st) = false ->
  fetchOrder oid = Some data ->
  order_id_ data = oid ->
  let r1 := openNotification fetchOrder item st in
  let st1 := syncOrdersRef r1.1 in
  let r2 := openNotification fetchOrder item st1 in
  r1.2 = [oid]
  /\ r2.2 = []
  /\ orders r2.1 = orders st1
  /\ notifications r2.1 = notifications st1.
Proof.
  intros Ho Href Hf Hd r1 st1 r2.
  assert (Hr1 : r1 = (setIsNotificationOpen false
                        (navigateToOrder oid
                           (setOrders (mergeFetched data)
                              (setNotifications (markRead (id item)) st))),
                      [oid])).
  { subst r1. unfold openNotification. rewrite Ho. simpl. by rewrite Href, Hf. }
  assert (Hh : hasOrder oid (Nav.ordersRef st1) = true).
  { subst st1. rewrite Hr1. simpl. rewrite <- Hd. apply hasOrder_merge. }
  assert (Hn : markRead (id item) (notifications st1) = notifications st1).
  { subst st1. rewrite Hr1. simpl. apply markRead_idem. }
  split; [by rewrite Hr1|].
  clearbody st1. subst r2. unfold openNotification. rewrite Ho.
  cbn [setNotifications Nav.ordersRef]. rewrite Hh. simpl.
  by rewrite Hn.
Qed.

End OpenFacts.

(** * The inbox under any sequence of its three operations *)

Section InboxOpsFacts.
Import InboxOps Render.

Lemma apply_length op prev :
  length (apply op prev)
  = match op with
    | Push _ _ _ _ _ => Nat.min 50 (S (length prev))
    | _ => length prev
    end.
Proof.
  destruct op; simpl.
  - unfold Inbox.pushNotification. rewrite length_take. simpl. lia.
  - unfold Inbox.markAllNotificationsRead. apply length_map.
  - unfold Nav.markRead. apply length_map.
Qed.

(** X19: Starting from an inbox of at most 50 entries (the empty one of a new
    session, say), no sequence of pushes, mark-all-read and opens ever makes
    it longer than 50, nor longer than the start plus the number of
    pushes. *)
Theorem inbox_never_exceeds_cap (ops : list Op) (start : list AppNotification) :
  length start <= 50 ->
  length (applyAll ops start) <= 50
  /\ length (applyAll ops start)
     <= length start + length (List.filter (fun op => bool_decide (is_Some (pushedId op))) ops).
Proof.
  unfold applyAll. revert start.
  induction ops as [|op ops IH]; intros start Hlen; [simpl; lia|].
  cbn [fold_left List.filter].
  pose proof (apply_length op start) as Hop.
  destruct (IH (apply op start)) as [H1 H2].
  - rewrite Hop. destruct op; lia.
  - split; [exact H1|]. rewrite Hop in H2.
    destruct op; cbn [apply] in H2; simpl; lia.
Qed.

Lemma markRead_ids i l : map id (Nav.markRead i l) = map id l.
Proof.
  unfold Nav.markRead. rewrite map_map. apply map_ext.
  intros n. by destruct (bool_decide (id n = i)).
Qed.

Lemma markAll_ids l : map id (Inbox.markAllNotificationsRead l) = map id l.
Proof. unfold Inbox.markAllNotificationsRead. rewrite map_map. by apply map_ext. Qed.

(** X20: Each operation keeps the ids of the inbox distinct, provided a pushed
    id is not already in the inbox. *)
Theorem inbox_ids_stay_distinct (op : Op) (prev : list AppNotification) :
  NoDup (map id prev) ->
  (forall i, pushedId op = Some i -> i ∉ map id prev) ->
  NoDup (map id (apply op prev)).
Proof.
  intros Hnd Hfresh. destruct op as [nowId nowIso ttl msg orderId| |itemId]; simpl.
  - unfold Inbox.pushNotification. cbn [take map]. fold (take 49 prev).
    apply NoDup_cons. split.
    + intros Hin. apply (Hfresh nowId eq_refl).
      apply list_elem_of_In, in_map_iff in Hin as (n & Hn & Hin).
      apply list_elem_of_In, in_map_iff. exists n. split; [done|].
      apply list_elem_of_In. apply (subseteq_take 49 prev). by apply list_elem_of_In.
    + rewrite <- (take_drop 49 prev), map_app in Hnd.
      by apply NoDup_app in Hnd as (Hnd & _).
  - by rewrite markAll_ids.
  - by rewrite markRead_ids.
Qed.

(** X21: No operation alters what an entry says or un-reads it: every entry of
    the inbox after an operation is the entry just pushed, or has the id,
    title, message, timestamp and order id of a previous entry, and is read
    if that one was. *)
Theorem inbox_entries_only_become_read
    (op : Op) (prev : list AppNotification) (n' : AppNotification) :
  n' ∈ apply op prev ->
  (exists nowId nowIso ttl msg orderId,
     op = Push nowId nowIso ttl msg orderId
     /\ n' = Inbox.newItem nowId nowIso ttl msg orderId)
  \/ (exists n, n ∈ prev /\ contentOf n' = contentOf n
                /\ (read n = true -> read n' = true)).
Proof.
  destruct op as [nowId nowIso ttl msg orderId| |itemId]; simpl.
  - unfold Inbox.pushNotification. cbn [take]. fold (take 49 prev).
    intros [->|Hin]%elem_of_cons.
    + left. by exists nowId, nowIso, ttl, msg, orderId.
    + right. exists n'. split; [by apply (subseteq_take 49 prev) | done].
  - unfold Inbox.markAllNotificationsRead.
    intros (n & <- & Hin)%list_elem_of_In%in_map_iff. right. exists n.
    split; [by apply list_elem_of_In | done].
  - unfold Nav.markRead.
    intros (n & <- & Hin)%list_elem_of_In%in_map_iff. right. exists n.
    split; [by apply list_elem_of_In|].
    by destruct (bool_decide (id n = itemId)).
Qed.

End InboxOpsFacts.

(** * Order codes in notification messages *)

Section OrderCodeFacts.
Import Sync.

Lemma substring_head_length m s :
  String.length (String.substring 0 m s) = Nat.min m (String.length s).
Proof.
  revert m. induction s as [|c s IH]; intros [|m]; simpl; try done.
  by rewrite IH.
Qed.

Lemma substring_head_prefix m s :
  String.prefix (String.substring 0 m s) s = true.
Proof.
  revert m. induction s as [|c s IH]; intros [|m]; simpl; try done.
  destruct (Ascii.ascii_dec c c); [apply IH | done].
Qed.

(** X22: [getOrderCode] gives the code of the first loaded order with the id;
    for distinct loaded ids that is the code of the order itself.  For an
    order that is not loaded it gives the first 8 characters of the id (the
    whole id when shorter). *)
Theorem getOrderCode_spec (ctx : SyncCtx) (orderId : string) :
  (NoDup (map order_id_ (ordersRef ctx)) ->
   forall o, o ∈ ordersRef ctx -> getOrderCode ctx (order_id_ o) = order_code o)
  /\ (orderId ∈ map order_id_ (ordersRef ctx) ->
      exists o, o ∈ ordersRef ctx /\ order_id_ o = orderId
                /\ getOrderCode ctx orderId = order_code o)
  /\ (orderId ∉ map order_id_ (ordersRef ctx) ->
      String.length (getOrderCode ctx orderId) = Nat.min 8 (String.length orderId)
      /\ String.prefix (getOrderCode ctx orderId) orderId = true).
Proof.
  unfold getOrderCode. split; [|split].
  - generalize (ordersRef ctx) as l. intros l Hnd o Hin.
    induction l as [|x l IH]; [by apply elem_of_nil in Hin|].
    simpl in *. apply NoDup_cons in Hnd as [Hx Hnd].
    apply elem_of_cons in Hin as [->|Hin].
    + by rewrite bool_decide_eq_true_2.
    + rewrite bool_decide_eq_false_2; [by apply IH|].
      intros Heq. apply Hx. rewrite Heq. apply list_elem_of_In, in_map.
      by apply list_elem_of_In.
  - intros Hin%hasOrder_true.
    destruct (find_present orderId (ordersRef ctx) Hin) as (o & Hf & Ho & Hino).
    exists o. by rewrite Hf.
  - intros Hni%hasOrder_false. rewrite (find_absent _ _ Hni).
    split; [apply substring_head_length | apply substring_head_prefix].
Qed.

End OrderCodeFacts.

(** * CSV export *)

Section CsvFacts.
Import Csv.

Lemma append_cons a (s t : string) : String a s +:+ t = String a (s +:+ t).
Proof. reflexivity. Qed.

Lemma append_nil_l (t : string) : EmptyString +:+ t = t.
Proof. reflexivity. Qed.

Lemma append_nil_r (s : string) : s +:+ EmptyString = s.
Proof.
  induction s as [|a s IH]; [done|]. by rewrite append_cons, IH.
Qed.

Lemma append_assoc' (a b c : string) : (a +:+ b) +:+ c = a +:+ (b +:+ c).
Proof.
  induction a as [|x a IH]; [done|]. by rewrite !append_cons, IH.
Qed.

Lemma readRaw_clean v rest :
  includes comma v = false -> includes newline v = false -> endsField rest ->
  readRaw (v +:+ rest) = (v, rest).
Proof.
  intros Hc Hn Hrest. induction v as [|a v IH].
  - rewrite append_nil_l. by destruct Hrest as [-> | [[r ->] | [r ->]]].
  - simpl in Hc, Hn. apply orb_false_iff in Hc as [Ha Hc].
    apply orb_false_iff in Hn as [Ha' Hn].
    rewrite append_cons. simpl. rewrite Ha, Ha'. by rewrite IH.
Qed.

Lemma readQuoted_doubled v rest :
  endsField rest ->
  readQuoted (doubleQuotes v +:+ String dquote rest) = Some (v, rest).
Proof.
  intros Hrest. induction v as [|a v IH].
  - simpl doubleQuotes. rewrite append_nil_l.
    by destruct Hrest as [-> | [[r ->] | [r ->]]].
  - simpl doubleQuotes. case_bool_decide as Ha.
    + rewrite !append_cons. cbn [readQuoted].
      rewrite (bool_decide_eq_true_2 (dquote = dquote)) by done.
      rewrite IH. by rewrite Ha.
    + rewrite append_cons. cbn [readQuoted].
      rewrite (bool_decide_eq_false_2 (a = dquote)) by done. by rewrite IH.
Qed.

Lemma readField_quoted v rest :
  endsField rest ->
  readField (String dquote (doubleQuotes v +:+ String dquote EmptyString) +:+ rest)
  = Some (v, rest).
Proof.
  intros Hrest. rewrite append_cons, append_assoc', append_cons, append_nil_l.
  cbn [readField]. rewrite (bool_decide_eq_true_2 (dquote = dquote)) by done.
  by apply readQuoted_doubled.
Qed.

(** The reader gets back the value from an escaped field, whatever else
    follows on the line. *)
Lemma readField_csvEscape v rest :
  endsField rest -> readField (csvEscape v +:+ rest) = Some (v, rest).
Proof.
  intros Hrest. unfold csvEscape.
  destruct (includes dquote v) eqn:Hq; [by apply readField_quoted|].
  destruct (includes comma v) eqn:Hc; [by apply readField_quoted|].
  destruct (includes newline v) eqn:Hn; [by apply readField_quoted|].
  cbn [orb]. destruct v as [|a v].
  - rewrite append_nil_l. by destruct Hrest as [-> | [[r ->] | [r ->]]].
  - pose proof Hq as Hq'. simpl in Hq'. apply orb_false_iff in Hq' as [Hqa _].
    rewrite append_cons. cbn [readField]. rewrite Hqa.
    by rewrite <- append_cons, readRaw_clean.
Qed.

Lemma concat_cons sep x y l :
  String.concat sep (x :: y :: l) = x +:+ sep +:+ String.concat sep (y :: l).
Proof. reflexivity. Qed.

Lemma afterLine_endsField rest next : afterLine rest = Some next -> endsField rest.
Proof.
  destruct rest as [|a r]; [by left|]. simpl. case_bool_decide as Ha; [|done].
  intros _. right. right. exists r. by rewrite Ha.
Qed.

Lemma readFields_csvLine row rest next fuel :
  row <> [] -> length row <= fuel -> afterLine rest = Some next ->
  readFields fuel (csvLine row +:+ rest) = Some (row, next).
Proof.
  unfold csvLine. intros Hne Hlen Hnext. revert fuel Hne Hlen.
  induction row as [|x row IH]; intros fuel Hne Hlen; [done|].
  destruct fuel as [|fuel]; [simpl in Hlen; lia|].
  destruct row as [|y row].
  - cbn [map String.concat readFields].
    rewrite readField_csvEscape by (by eapply afterLine_endsField).
    destruct rest as [|a r]; simpl in Hnext; [by injection Hnext as <-|].
    case_bool_decide as Ha; [|done]. injection Hnext as <-.
    rewrite Ha. done.
  - cbn [map]. rewrite concat_cons, !append_assoc'. cbn [readFields].
    rewrite readField_csvEscape by (right; left; by eexists).
    rewrite append_cons, append_nil_l.
    rewrite (bool_decide_eq_true_2 (comma = comma)) by done.
    cbn [map] in IH. rewrite IH; [done | done | simpl in *; lia].
Qed.

Lemma readSheet_lines (rows : list (list string)) fuel lines :
  rows <> [] -> Forall (fun row => row <> [] /\ length row <= fuel) rows ->
  length rows <= lines ->
  readSheet lines fuel (String.concat (String newline EmptyString) (map csvLine rows))
  = Some rows.
Proof.
  revert lines. induction rows as [|row rows IH]; intros lines Hne Hall Hlen;
    [done|].
  apply Forall_cons in Hall as [[Hrow Hfuel] Hall].
  destruct lines as [|lines]; [simpl in Hlen; lia|].
  destruct rows as [|row' rows].
  - cbn [map String.concat readSheet].
    replace (csvLine row) with (csvLine row +:+ EmptyString) by apply append_nil_r.
    by rewrite (readFields_csvLine row EmptyString None).
  - cbn [map]. rewrite concat_cons. cbn [readSheet].
    rewrite append_cons, append_nil_l.
    rewrite (readFields_csvLine row (String newline _) (Some _) fuel Hrow Hfuel
               eq_refl).
    cbn [map] in IH. rewrite IH; [done | done | done | simpl in *; lia].
Qed.

(** X23: No two values have the same escaped form: what [csvEscape] writes
    determines the value. *)
Theorem csvEscape_injective (a b : string) :
  csvEscape a = csvEscape b -> a = b.
Proof.
  intros Heq.
  pose proof (readField_csvEscape a EmptyString (or_introl eq_refl)) as Ha.
  pose proof (readField_csvEscape b EmptyString (or_introl eq_refl)) as Hb.
  rewrite Heq, Hb in Ha. by injection Ha.
Qed.

(** X24: No two non-empty rows have the same line: commas, quotes and line
    breaks inside cells never blur where one cell ends and the next
    begins. *)
Theorem csvLine_injective (row1 row2 : list string) :
  row1 <> [] -> row2 <> [] -> csvLine row1 = csvLine row2 -> row1 = row2.
Proof.
  intros H1 H2 Heq.
  pose proof (readFields_csvLine row1 EmptyString None (length row1 + length row2)
                H1 ltac:(lia) eq_refl) as Ha.
  pose proof (readFields_csvLine row2 EmptyString None (length row1 + length row2)
                H2 ltac:(lia) eq_refl) as Hb.
  rewrite !append_nil_r in Ha, Hb. rewrite Heq, Hb in Ha. by injection Ha.
Qed.

Lemma fuel_for (rows : list (list string)) :
  Forall (fun row => row <> []) rows ->
  forall extra,
    Forall (fun row => row <> [] /\ length row <= extra + list_sum (map length rows))
           rows.
Proof.
  induction 1 as [|row rows Hrow _ IH]; intros extra; [constructor|].
  constructor.
  - split; [done | simpl; lia].
  - eapply Forall_impl; [apply (IH (extra + length row))|].
    intros r [? ?]. split; [done | simpl; lia].
Qed.

(** X25: The downloaded sheet determines its header and its rows: two sheets
    whose rows all have at least one cell are the same text only when they
    have the same header and the same rows, whatever commas, quotes and line
    breaks the cells contain. *)
Theorem csvSheet_injective
    (header1 header2 : list string) (rows1 rows2 : list (list string)) :
  Forall (fun row => row <> []) (header1 :: rows1) ->
  Forall (fun row => row <> []) (header2 :: rows2) ->
  csvSheet header1 rows1 = csvSheet header2 rows2 ->
  header1 = header2 /\ rows1 = rows2.
Proof.
  intros H1 H2 Heq. unfold csvSheet in Heq.
  set (all1 := header1 :: rows1) in *. set (all2 := header2 :: rows2) in *.
  set (fuel := list_sum (map length all1) + list_sum (map length all2)).
  set (lines := length all1 + length all2).
  assert (Ha : readSheet lines fuel
                 (String.concat (String newline EmptyString) (map csvLine all1))
               = Some all1).
  { apply readSheet_lines; [done | | unfold lines; lia].
    eapply Forall_impl; [apply (fuel_for all1 H1 (list_sum (map length all2)))|].
    intros r [? ?]. split; [done | unfold fuel; lia]. }
  assert (Hb : readSheet lines fuel
                 (String.concat (String newline EmptyString) (map csvLine all2))
               = Some all2).
  { apply readSheet_lines; [done | | unfold lines; lia].
    eapply Forall_impl; [apply (fuel_for all2 H2 (list_sum (map length all1)))|].
    intros r [? ?]. split; [done | unfold fuel; lia]. }
  rewrite Heq, Hb in Ha. injection Ha as <- <-. done.
Qed.

End CsvFacts.

(** * Further scenarios *)

Section MoreScenarios.
Import Sync Streams Fixtures Samples.

Ltac by_computation := apply (bool_decide_unpack _); vm_compute; exact I.

(** 25 rows make 3 pages; the third one is not empty. *)
Lemma page_bounds_witness : Paging.paginatedOrders numbers25 3 <> [].
Proof.
  destruct (page_bounds numbers25 3) as (_ & _ & _ & Hsome & _).
  apply Hsome; [discriminate | vm_compute; lia].
Defined.

Lemma page_navigation_in_range_witness :
  1 <= Paging.clampPage (Paging.totalPages 25) 7 <= Paging.totalPages 25.
Proof.
  destruct (page_navigation_in_range 25 7) as (_ & _ & _ & _ & _ & Hclamp & _).
  - lia.
  - exact Hclamp.
Defined.

Lemma profilesById_lookup_witness :
  Directory.profilesById people !! "u-ann" = Some ann.
Proof.
  destruct (profilesById_lookup people) as (_ & _ & _ & Hd).
  apply (Hd ltac:(by_computation) ann). by_computation.
Defined.

Lemma removeToast_spec_witness :
  Toasts.removeToast "t-3" (Toasts.addToast "t-3" Toasts.success "Saved" toasts2)
  = toasts2.
Proof.
  destruct (removeToast_spec "t-3" toasts2) as (_ & _ & _ & Hround).
  apply Hround. by_computation.
Defined.

Lemma orders_pull_diffs_against_previous_map_witness :
  orderStatusMap (syncEvents (ctxOf sam) false (Some rows2) None None seeded).1
    !! "o-2" = Some completed.
Proof.
  destruct (orders_pull_diffs_against_previous_map (ctxOf sam) rows2 None None seeded)
    as (_ & Hrec & _).
  - by_computation.
  - apply (Hrec (mkOrderRow "o-2" completed (Some "u-bob"))). by_computation.
Defined.

Lemma initial_pull_notifies_no_order_witness :
  logOf Orders (syncEvents (ctxOf sam) false (Some rows2) (Some comments2) None
                           (startSession t0)).2
  = map (fun row => (PullOrder row, [])) rows2.
Proof.
  destruct (initial_pull_notifies_no_order (ctxOf sam) t0 rows2 (Some comments2) None)
    as (Hfresh & _).
  - by_computation.
  - exact Hfresh.
Defined.

Lemma repeated_orders_pull_is_silent_witness :
  logOf Orders
    (syncEvents (ctxOf sam) false (Some rows2) None None
       (syncEvents (ctxOf sam) false (Some rows2) None None seeded).1).2
  = map (fun row => (PullOrder row, [])) rows2.
Proof.
  destruct (repeated_orders_pull_is_silent (ctxOf sam) (ctxOf sam) rows2
              None None None None seeded) as (Hlog & _).
  - by_computation.
  - exact Hlog.
Defined.

Lemma status_map_rebuilt_from_rows_witness :
  orderStatusMap (seedStatusMap (snapshotOf rows2) fresh) !! "o-1" = Some in_progress.
Proof.
  destruct (status_map_rebuilt_from_rows (snapshotOf rows2) [order1] fresh)
    as (Hseed & _).
  apply Hseed; by_computation.
Defined.

Lemma cursor_covers_new_rows_witness :
  String.ltb
    (lastCommentSeenAt
       (syncEvents (ctxOf ada) false None (Some comments2) (Some files1) fresh).1)
    t2 = false.
Proof.
  destruct (cursor_covers_new_rows (ctxOf ada) None comments2 files1 fresh)
    as (Hc & _).
  apply (Hc ltac:(by_computation)
            ltac:(apply Forall_forall; by_computation)
            (mkCommentRow "c-2" "o-1" (Some "u-sam") t2)).
  by_computation.
Defined.

Lemma openNotification_reaches_order_witness :
  exists o, Nav.selectedOrder (Nav.openNotification fetchAny noteAboutLoaded appState).1
            = Some o
            /\ order_id_ o = "o-1".
Proof.
  destruct (openNotification_reaches_order fetchAny noteAboutLoaded appState "o-1")
    as ((o & Hsel & Hid & _) & _).
  - reflexivity.
  - left. split; reflexivity.
  - exists o. by split.
Defined.

Lemma openNotification_unread_count_witness :
  Inbox.unreadNotificationCount
    (Nav.notifications (Nav.openNotification fetchAny noteAboutLoaded appState).1) + 1
  = Inbox.unreadNotificationCount (Nav.notifications appState).
Proof.
  apply (openNotification_unread_count fetchAny noteAboutLoaded appState);
    by_computation.
Defined.

Lemma reopening_fetches_nothing_witness :
  (Nav.openNotification fetchAny noteAboutMissing appState).2 = ["o-9"]
  /\ (Nav.openNotification fetchAny noteAboutMissing
        (Render.syncOrdersRef
           (Nav.openNotification fetchAny noteAboutMissing appState).1)).2 = [].
Proof.
  destruct (reopening_fetches_nothing fetchAny noteAboutMissing appState "o-9"
              (mkOrder "o-9" "ORD-20240102-ZZ99" "Fetched" completed None None None))
    as (H1 & H2 & _); try reflexivity.
  split; [exact H1 | exact H2].
Defined.

Lemma inbox_never_exceeds_cap_witness :
  length (InboxOps.applyAll someOps (Inbox.sampleInbox 50)) <= 50.
Proof.
  destruct (inbox_never_exceeds_cap someOps (Inbox.sampleInbox 50)) as (Hcap & _).
  - vm_compute. lia.
  - exact Hcap.
Defined.

Lemma inbox_ids_stay_distinct_witness :
  NoDup (map id (InboxOps.apply (InboxOps.Push "n-4" t1 "New Comment" "m4" None)
                                inboxOf3)).
Proof.
  apply inbox_ids_stay_distinct.
  - by_computation.
  - intros i [= <-]. by_computation.
Defined.

Lemma inbox_entries_only_become_read_witness :
  exists n, n ∈ inboxOf3
            /\ Render.contentOf (Inbox.setRead noteAboutLoaded) = Render.contentOf n
            /\ (read n = true -> read (Inbox.setRead noteAboutLoaded) = true).
Proof.
  destruct (inbox_entries_only_become_read InboxOps.MarkAll inboxOf3
              (Inbox.setRead noteAboutLoaded)) as [(? & ? & ? & ? & ? & Hop & _) | Hold].
  - by_computation.
  - discriminate Hop.
  - exact Hold.
Defined.

Lemma getOrderCode_spec_witness :
  getOrderCode (ctxOf sam) "o-1" = "ORD-20240101-AB12"
  /\ String.length (getOrderCode (ctxOf sam) "0f5c2a9e-7b1d-4c3e") = 8.
Proof.
  split.
  - destruct (getOrderCode_spec (ctxOf sam) "o-1") as (Hloaded & _).
    apply (Hloaded ltac:(by_computation) order1). by_computation.
  - destruct (getOrderCode_spec (ctxOf sam) "0f5c2a9e-7b1d-4c3e") as (_ & _ & Hnot).
    destruct Hnot as (Hlen & _); [by_computation | exact Hlen].
Defined.

Lemma csvEscape_injective_witness :
  "Fix login, please" = String.substring 0 17 "Fix login, please now".
Proof.
  apply csvEscape_injective. vm_compute. reflexivity.
Defined.

Lemma csvLine_injective_witness :
  cellsA = map (String.substring 0 17)
               ["ORD-1"; "Fix login, please now"; "in_progress"].
Proof.
  apply csvLine_injective; [discriminate | discriminate | vm_compute; reflexivity].
Defined.

Lemma csvSheet_injective_witness :
  ["Order Code"; "Title"; "Status"] = map (String.substring 0 10)
                                          ["Order Code"; "Title"; "Status"]
  /\ [cellsA] = [map (String.substring 0 17) cellsA].
Proof.
  apply csvSheet_injective.
  - repeat constructor; discriminate.
  - repeat constructor; discriminate.
  - vm_compute. reflexivity.
Defined.

End MoreScenarios.

(** * Order observations along a trace *)

Section ObservedFacts.
Import Sync Streams Observed.




(** X27: A client viewer is only ever notified of a status change of an order
    whose row names the viewer as its client, on either path and whatever
    the status map or the payload's old row hold. *)
Theorem client_only_notified_of_own_orders
    (ctx : SyncCtx) (d : Delivery) (refs : SyncRefs) (n : Notify) :
  role (profile ctx) = client ->
  streamOf d = Orders ->
  n ∈ (deliver ctx d refs).2 ->
  clientIdOf d = Some (profile_id (profile ctx)).
Proof.
  intros Hrole Hs.
  assert (Hgate : forall oid prev next cid,
            n ∈ diffStatus ctx oid prev next cid ->
            cid = Some (profile_id (profile ctx))).
  { intros oid prev next cid. unfold diffStatus, isClientOwn. rewrite Hrole.
    destruct prev; [|by intros ?%elem_of_nil].
    case_bool_decide; [|by intros ?%elem_of_nil].
    case_bool_decide; [done | by intros ?%elem_of_nil]. }
  destruct d as [p|row| | | |]; try done; simpl.
  - unfold ordersChannel. destruct (eventType p);
      try (by intros ?%elem_of_nil);
      (destruct (truthy (po_id (payload_new p))); [|by intros ?%elem_of_nil]);
      (destruct (po_status (payload_new p)); [|by intros ?%elem_of_nil]);
      simpl; apply Hgate.
  - apply Hgate.
Qed.

End ObservedFacts.

Section TraceScenarios.
Import Sync Streams Observed Fixtures Samples.

(** Sam's file reaches Ann through the realtime callback first and through
    the pull afterwards. *)
Lemma new_id_notified_exactly_once_witness :
  notifiedFor fileIdOf "f-1"
    (run fresh [(ctxOf ann, PushFile samFilePayload); (ctxOf ann, PullFile samFile)]).2
  = 1.
Proof.
  destruct (new_id_notified_exactly_once (ctxOf ann) (PushFile samFilePayload) fresh
              "f-1" [(ctxOf ann, PullFile samFile)]) as (_ & _ & Hfile).
  - reflexivity.
  - discriminate.
  - apply Hfile; [reflexivity|]. apply (bool_decide_unpack _). vm_compute. exact I.
Defined.


(** Ann is notified of the change of her own order. *)
Lemma client_only_notified_of_own_orders_witness :
  clientIdOf (observe ViaPull "o-1" in_progress (Some "u-ann")) = Some "u-ann".
Proof.
  apply (client_only_notified_of_own_orders (ctxOf ann)
           (observe ViaPull "o-1" in_progress (Some "u-ann")) seeded
           (statusChanged (ctxOf ann) "o-1" not_started in_progress)).
  - reflexivity.
  - reflexivity.
  - vm_compute. apply list_elem_of_here.
Defined.

End TraceScenarios.

(** * The status map rebuilt from a lagging order list *)

Section StaleFacts.
Import Sync Stale.

(** C2: the same transition of order o-1, from not started to in progress,
    is announced twice to the staff viewer.  The first pull announces it
    and records the new status.  The order list still holds the order as not
    started; when the list changes (here by the order that opening a
    notification fetched), the effect on [orders] rebuilds the map from it,
    and the next pull of the same row, and likewise the realtime callback,
    announces the transition again. *)
Theorem stale_order_list_announces_transition_twice :
  orderStatusMap loaded !! "o-1" = Some not_started
  /\ (deliver viewer (PullOrder pulledRow) loaded).2 = [announcement]
  /\ orderStatusMap afterFirstPull !! "o-1" = Some in_progress
  /\ map order_id_ (Nav.orders afterOpen) = ["o-9"; "o-1"]
  /\ orderStatusMap rebuilt !! "o-1" = Some not_started
  /\ (deliver viewerAfterOpen (PullOrder pulledRow) rebuilt).2 = [announcement]
  /\ (deliver viewerAfterOpen
        (PushOrder (mkOrdersPayload UPDATE
                      (mkPartialOrder (Some "o-1") None None)
                      (mkPartialOrder (Some "o-1") (Some in_progress) (Some "u-ann"))))
        rebuilt).2 = [announcement].
Proof. repeat split; vm_compute; reflexivity. Qed.

End StaleFacts.
